(** * fuo_ytmusic: stream-URL resolution and result caching

    A shallow embedding of [fuo_ytmusic/service.py] (class [YtmusicService]
    and the module-level [CACHE]).  The service object is a record of its
    mutable attributes, every method is a function in a state-and-exception
    monad, and the remote world (the catalog API, the HTTP session, the
    pytube helpers) is a record of oracles that may depend on the whole
    history of interactions.  The methods of [fuo_ytmusic/provider.py]
    that go through the service are embedded on top of it, with the
    models they use as parameters. *)

From Stdlib Require Import ZArith NArith List String Ascii Bool Lia.
From Stdlib Require Import DecimalString.
Import ListNotations.

Local Open Scope string_scope.
Local Open Scope Z_scope.

Set Implicit Arguments.

(* ================================================================== *)
(** ** Python string primitives used by [_get_stream_url] *)
(* ================================================================== *)

Module PyStr.

(** [s.startswith(p)] *)
Fixpoint startswith (p s : string) : bool :=
  match p with
  | EmptyString => true
  | String a p' =>
      match s with
      | EmptyString => false
      | String b s' => Ascii.eqb a b && startswith p' s'
      end
  end.

(** [s.find(sub)]: the lowest index at which [sub] occurs, or [-1]. *)
Fixpoint find (sub s : string) : Z :=
  if startswith sub s then 0
  else match s with
       | EmptyString => -1
       | String _ s' =>
           let r := find sub s' in
           if r <? 0 then -1 else r + 1
       end.

(** [s[n:]] for a non-negative [n]. *)
Fixpoint drop (n : nat) (s : string) : string :=
  match n with
  | O => s
  | S n' => match s with
            | EmptyString => EmptyString
            | String _ s' => drop n' s'
            end
  end.

(** [s.split(sep)] for a separator of one character: the pieces between
    the occurrences of [sep]; never an empty list. *)
Fixpoint split (sep : ascii) (s : string) : list string :=
  match s with
  | EmptyString => [EmptyString]
  | String c s' =>
      if Ascii.eqb c sep then EmptyString :: split sep s'
      else match split sep s' with
           | [] => [String c EmptyString]
           | p :: ps => String c p :: ps
           end
  end.

(** [c not in s] *)
Fixpoint lacks (c : ascii) (s : string) : bool :=
  match s with
  | EmptyString => true
  | String a s' => negb (Ascii.eqb a c) && lacks c s'
  end.

End PyStr.

(* ================================================================== *)
(** ** Data model *)
(* ================================================================== *)

(** Modelled from the spec: [fuo_ytmusic/models.py] is not part of the
    sources at hand; [SongInfo.StreamingData.Format] carries the fields the
    service reads: the numeric format code [itag], the optional plain [url]
    and the optional [signatureCipher] blob. *)
Record Format := {
  itag : Z;
  url : option string;
  signatureCipher : option string
}.

Record StreamingData := { adaptiveFormats : list Format }.

Record SongInfo := { streamingData : StreamingData }.

(** Exceptions the modelled code can raise. *)
Inductive Exn :=
| AttributeError      (* attribute access on [None] *)
| RegexMatchError     (* pytube could not recognise the page or script *)
| RequestException    (* the HTTP session or the catalog API failed *)
| TypeError           (* a cached value of another operation's type *)
| RecursionError.     (* recursion depth exhausted *)

(** Everything the service does that is observable from outside, in
    chronological order.  [EvSignature] records an invocation of the
    cipher, the way an instrumented engine would count them. *)
Inductive Event :=
| EvGetSignatureTimestamp
| EvGetSong (video_id : string) (signature_timestamp : Z)
| EvApi (endpoint : string) (args : list string)
| EvHead (url : string)
| EvGet (url : string)
| EvSignature (ciphered_signature : string).

Definition is_head (e : Event) : bool :=
  match e with EvHead _ => true | _ => false end.
Definition is_get (e : Event) : bool :=
  match e with EvGet _ => true | _ => false end.
Definition is_signature (e : Event) : bool :=
  match e with EvSignature _ => true | _ => false end.
Definition is_get_song (e : Event) : bool :=
  match e with EvGetSong _ _ => true | _ => false end.
Definition is_refresh (e : Event) : bool :=
  match e with EvGetSignatureTimestamp => true | _ => false end.

Definition count (p : Event -> bool) (tr : list Event) : nat :=
  List.length (filter p tr).

(* ================================================================== *)
(** ** The result cache *)
(* ================================================================== *)

(** Cache keys as [cachetools.keys.hashkey] builds them: the tuple of the
    operation name bound by [partial], the receiver [self] and the call's
    positional arguments. *)
Inductive Arg :=
| ASelf
| AStr (s : string)
| AInt (z : Z).

Definition Key := list Arg.

Definition Arg_eqb (a b : Arg) : bool :=
  match a, b with
  | ASelf, ASelf => true
  | AStr s, AStr t => String.eqb s t
  | AInt x, AInt y => Z.eqb x y
  | _, _ => false
  end.

Fixpoint Key_eqb (k1 k2 : Key) : bool :=
  match k1, k2 with
  | [], [] => true
  | a :: k1', b :: k2' => Arg_eqb a b && Key_eqb k1' k2'
  | _, _ => false
  end.

Definition hashkey (name : string) (args : list Arg) : Key :=
  AStr name :: args.

(** What the cached operations store. *)
Inductive Value :=
| VSongInfo (i : SongInfo)
| VUrl (u : option string)
| VData (payload : string).

(** [timedelta(minutes=m).seconds] *)
Definition timedelta_minutes_seconds (m : Z) : Z := (m * 60) mod 86400.

Module TTLCache.

Record CachedEntry := {
  entry_key : Key;
  entry_value : Value;
  entry_time : Z          (* insertion time *)
}.

(** Modelled from the spec: [cachetools.TTLCache] is a third-party class
    and not part of the sources at hand.  A cache instance has a fixed
    capacity and a fixed TTL; its entries are kept from the least to the
    most recently used. *)
Record t := {
  maxsize : nat;
  ttl : Z;
  entries : list CachedEntry
}.

Definition new (maxsize : nat) (ttl : Z) : t :=
  {| maxsize := maxsize; ttl := ttl; entries := [] |}.

Definition with_entries (c : t) (es : list CachedEntry) : t :=
  {| maxsize := maxsize c; ttl := ttl c; entries := es |}.

(** Modelled from the spec: an entry is visible to readers only while
    [now - insertion_time < ttl]. *)
Definition live (c : t) (now : Z) (e : CachedEntry) : bool :=
  now - entry_time e <? ttl c.

Definition has_key (k : Key) (e : CachedEntry) : bool :=
  Key_eqb (entry_key e) k.

Definition lookup (k : Key) (es : list CachedEntry) : option CachedEntry :=
  List.find (has_key k) es.

Definition remove (k : Key) (es : list CachedEntry) : list CachedEntry :=
  filter (fun e => negb (has_key k e)) es.

(** Drops entries from the least-recently-used end until at most [n]
    are left. *)
Definition evict_lru (n : nat) (es : list CachedEntry) : list CachedEntry :=
  skipn (List.length es - n) es.

(** Modelled from the spec: a read.  A live hit yields the stored value
    and makes the entry the most recently used; an expired entry is
    evicted on this access and the read is a miss. *)
Definition get (now : Z) (k : Key) (c : t) : option Value * t :=
  match lookup k (entries c) with
  | Some e =>
      if live c now e
      then (Some (entry_value e), with_entries c (remove k (entries c) ++ [e]))
      else (None, with_entries c (remove k (entries c)))
  | None => (None, c)
  end.

(** Modelled from the spec: a write stores the value with the current
    time.  When the cache is at capacity the expired entries are purged,
    and if it still is at capacity the least recently used entries are
    evicted, whatever their remaining TTL. *)
Definition set (now : Z) (k : Key) (v : Value) (c : t) : t :=
  let es0 := remove k (entries c) in
  let es1 := if (maxsize c <=? List.length es0)%nat
             then filter (live c now) es0 else es0 in
  let es2 := evict_lru (maxsize c - 1) es1 in
  with_entries c
    (es2 ++ [{| entry_key := k; entry_value := v; entry_time := now |}]).

End TTLCache.

(** [CACHE = TTLCache(maxsize=100, ttl=timedelta(minutes=10).seconds)] *)
Definition CACHE : TTLCache.t :=
  TTLCache.new 100 (timedelta_minutes_seconds 10).


(* ================================================================== *)
(** ** The remote world *)
(* ================================================================== *)

(** The collaborators of the service.  The network-facing ones answer as a
    function of the history of interactions so far ([None]: the call
    raises); the pytube and urllib helpers are pure. *)
Record Remote (Cipher : Type) := {
  (* ytmusicapi.YTMusic, given the credentials in use *)
  api_get_signatureTimestamp : list Event -> option string -> option Z;
  api_get_song : list Event -> option string -> string -> Z -> option SongInfo;
  api_call : list Event -> option string -> string -> list string -> option string;
  (* requests.Session *)
  session_head : list Event -> string -> option Z;
  session_get : list Event -> string -> option string;
  (* HEADER_FILE, when it exists *)
  header_file : list Event -> option string;
  (* seconds of time.monotonic taken by the latest interaction *)
  latency : list Event -> N;
  (* urllib.parse.unquote *)
  unquote : string -> string;
  (* pytube.extract.js_url *)
  extract_js_url : string -> option string;
  (* pytube.cipher.Cipher(js=...) and Cipher.get_signature *)
  Cipher_new : string -> option Cipher;
  Cipher_get_signature : Cipher -> string -> string
}.

(* ================================================================== *)
(** ** The service object and its monad *)
(* ================================================================== *)

(** The attributes of the one [YtmusicService] instance, together with
    the module-level cache, the clock and the history of interactions. *)
Record State (Cipher : Type) := {
  _js : string;
  _cipher : option Cipher;
  _signature_timestamp : Z;
  _api_auth : option string;
  cache : TTLCache.t;
  now : Z;
  trace : list Event
}.

Inductive Result (A : Type) :=
| Ok (a : A)
| Raise (e : Exn).
Arguments Raise {A} e.

Section Service.

Variable Cipher : Type.
Variable R : Remote Cipher.

Let St := State Cipher.

Definition M (A : Type) : Type := St -> Result A * St.

Definition ret {A} (a : A) : M A := fun s => (Ok a, s).

Definition raise {A} (e : Exn) : M A := fun s => (Raise e, s).

Definition bind {A B} (m : M A) (k : A -> M B) : M B :=
  fun s =>
    match m s with
    | (Ok a, s') => k a s'
    | (Raise e, s') => (Raise e, s')
    end.

Definition gets {A} (proj : St -> A) : M A := fun s => (Ok (proj s), s).

Definition modify (upd : St -> St) : M unit := fun s => (Ok tt, upd s).

Definition lift {A} (e : Exn) (o : option A) : M A :=
  match o with
  | Some a => ret a
  | None => raise e
  end.

Local Notation "x <- m ;; k" := (bind m (fun x => k))
  (at level 61, m at next level, right associativity).
Local Notation "m ;;; k" := (bind m (fun _ => k))
  (at level 61, right associativity).

(** *** Attribute updates *)

Definition set_js (v : string) (s : St) : St :=
  {| _js := v; _cipher := _cipher s;
     _signature_timestamp := _signature_timestamp s;
     _api_auth := _api_auth s; cache := cache s; now := now s;
     trace := trace s |}.

Definition set_cipher (v : option Cipher) (s : St) : St :=
  {| _js := _js s; _cipher := v;
     _signature_timestamp := _signature_timestamp s;
     _api_auth := _api_auth s; cache := cache s; now := now s;
     trace := trace s |}.

Definition set_signature_timestamp (v : Z) (s : St) : St :=
  {| _js := _js s; _cipher := _cipher s;
     _signature_timestamp := v;
     _api_auth := _api_auth s; cache := cache s; now := now s;
     trace := trace s |}.

Definition set_api_auth (v : option string) (s : St) : St :=
  {| _js := _js s; _cipher := _cipher s;
     _signature_timestamp := _signature_timestamp s;
     _api_auth := v; cache := cache s; now := now s;
     trace := trace s |}.

Definition set_cache (v : TTLCache.t) (s : St) : St :=
  {| _js := _js s; _cipher := _cipher s;
     _signature_timestamp := _signature_timestamp s;
     _api_auth := _api_auth s; cache := v; now := now s;
     trace := trace s |}.

(** One interaction with the outside: it is appended to the history and
    the clock moves on by the time it took. *)
Definition record (e : Event) (s : St) : St :=
  {| _js := _js s; _cipher := _cipher s;
     _signature_timestamp := _signature_timestamp s;
     _api_auth := _api_auth s; cache := cache s;
     now := now s + Z.of_N (latency R (trace s ++ [e]));
     trace := trace s ++ [e] |}.

(** Time passing between two calls of the service. *)
Definition sleep (d : Z) (s : St) : St :=
  {| _js := _js s; _cipher := _cipher s;
     _signature_timestamp := _signature_timestamp s;
     _api_auth := _api_auth s; cache := cache s;
     now := now s + d;
     trace := trace s |}.

(** A call to a collaborator that may fail. *)
Definition remote {A} (e : Event) (answer : St -> option A) : M A :=
  fun s =>
    match answer s with
    | Some a => (Ok a, record e s)
    | None => (Raise RequestException, record e s)
    end.

Definition get_signatureTimestamp : M Z :=
  remote EvGetSignatureTimestamp
    (fun s => api_get_signatureTimestamp R (trace s) (_api_auth s)).

Definition get_song (video_id : string) (ts : Z) : M SongInfo :=
  remote (EvGetSong video_id ts)
    (fun s => api_get_song R (trace s) (_api_auth s) video_id ts).

Definition api (endpoint : string) (args : list string) : M string :=
  remote (EvApi endpoint args)
    (fun s => api_call R (trace s) (_api_auth s) endpoint args).

Definition head (u : string) : M Z :=
  remote (EvHead u) (fun s => session_head R (trace s) u).

Definition get (u : string) : M string :=
  remote (EvGet u) (fun s => session_get R (trace s) u).

Definition get_signature (c : Cipher) (ciphered_signature : string) : M string :=
  fun s => (Ok (Cipher_get_signature R c ciphered_signature),
            record (EvSignature ciphered_signature) s).


(** *** [cachetools.cached] *)

(** How a method's result sits among the cached values. *)
Record Codec (A : Type) := {
  inj : A -> Value;
  proj : Value -> option A
}.

Definition codec_song : Codec SongInfo :=
  {| inj := VSongInfo;
     proj := fun v => match v with VSongInfo i => Some i | _ => None end |}.

Definition codec_url : Codec (option string) :=
  {| inj := VUrl;
     proj := fun v => match v with VUrl u => Some u | _ => None end |}.

Definition codec_data : Codec string :=
  {| inj := VData;
     proj := fun v => match v with VData d => Some d | _ => None end |}.

(** Modelled from the spec: the decorator [cachetools.cached(cache=CACHE,
    key=...)] is third-party code and not part of the sources at hand.  On
    a live hit the stored value is returned and the method body is not
    run; on a miss or expiry the body runs once and its result is stored
    with the current time.  A body that raises stores nothing. *)
Definition cached {A} (cd : Codec A) (k : Key) (func : M A) : M A :=
  fun s =>
    let (hit, c) := TTLCache.get (now s) k (cache s) in
    let s0 := set_cache c s in
    match hit with
    | Some v =>
        match proj cd v with
        | Some a => (Ok a, s0)
        | None => (Raise TypeError, s0)
        end
    | None =>
        match func s0 with
        | (Ok a, s1) =>
            (Ok a, set_cache (TTLCache.set (now s1) k (inj cd a) (cache s1)) s1)
        | (Raise e, s1) => (Raise e, s1)
        end
    end.

(** *** [YtmusicService] *)

(** [setup]: a new session and a new API object, authenticated when the
    header file exists; then the signature timestamp is fetched. *)
Definition setup : M unit :=
  hf <- gets (fun s => header_file R (trace s)) ;;
  modify (set_api_auth hf) ;;;
  ts <- get_signatureTimestamp ;;
  modify (set_signature_timestamp ts).

(** The attributes as [__init__] sets them before it calls [setup]. *)
Definition init (t0 : Z) : St :=
  {| _js := ""; _cipher := None; _signature_timestamp := 0;
     _api_auth := None; cache := CACHE; now := t0; trace := [] |}.

Definition artist_info (channel_id : string) : M string :=
  cached codec_data (hashkey "artist_info" [ASelf; AStr channel_id])
    (api "get_artist" [channel_id]).

Definition artist_albums (channel_id params : string) : M string :=
  cached codec_data (hashkey "artist_albums" [ASelf; AStr channel_id; AStr params])
    (api "get_artist_albums" [channel_id; params]).

Definition user_info (channel_id : string) : M string :=
  cached codec_data (hashkey "user_info" [ASelf; AStr channel_id])
    (api "get_user" [channel_id]).

Definition album_info (browse_id : string) : M string :=
  cached codec_data (hashkey "album_info" [ASelf; AStr browse_id])
    (api "get_album" [browse_id]).

Definition song_info_func (video_id : string) : M SongInfo :=
  ts <- gets (@_signature_timestamp Cipher) ;;
  get_song video_id ts.

Definition song_info (video_id : string) : M SongInfo :=
  cached codec_song (hashkey "song_info" [ASelf; AStr video_id])
    (song_info_func video_id).

Definition categories : M string :=
  cached codec_data (hashkey "categories" [ASelf])
    (api "get_mood_categories" []).

Definition category_playlists (params : string) : M string :=
  cached codec_data (hashkey "category_playlist" [ASelf; AStr params])
    (api "get_mood_playlists" [params]).

(** [get_charts]: the credentials are taken off the API object around the
    call.  [country = None] is a call that leaves the default ['ZZ'] to
    the signature, which keeps it out of the key. *)
Definition get_charts_func (country : string) : M string :=
  auth <- gets (@_api_auth Cipher) ;;
  modify (set_api_auth None) ;;;
  response <- api "get_charts" [country] ;;
  modify (set_api_auth auth) ;;;
  ret response.

Definition get_charts (country : option string) : M string :=
  match country with
  | Some c => cached codec_data (hashkey "top_charts" [ASelf; AStr c])
                (get_charts_func c)
  | None => cached codec_data (hashkey "top_charts" [ASelf])
              (get_charts_func "ZZ")
  end.

(** [_get_cipher] *)
Definition _get_cipher (video_id : string) : M unit :=
  let embed_url := "https://www.youtube.com/embed/" ++ video_id in
  embed_html <- get embed_url ;;
  js_url <- lift RegexMatchError (extract_js_url R embed_html) ;;
  js <- get js_url ;;
  modify (set_js js) ;;;
  c <- lift RegexMatchError (Cipher_new R js) ;;
  modify (set_cipher (Some c)).

(** The dictionary [res] of [_get_stream_url]: its keys in insertion
    order with their values. *)
Definition dict := list (string * string).

Fixpoint dict_set (key v : string) (d : dict) : dict :=
  match d with
  | [] => [(key, v)]
  | (k, x) :: d' =>
      if String.eqb k key then (k, v) :: d' else (k, x) :: dict_set key v d'
  end.

Fixpoint dict_get (key : string) (d : dict) : string :=
  match d with
  | [] => ""
  | (k, x) :: d' => if String.eqb k key then x else dict_get key d'
  end.

(** The two nested loops over the pieces of the blob and the keys of
    [res]. *)
Definition parse_piece (sig : string) (res : dict) : dict :=
  fold_left
    (fun res key =>
       if 0 <=? PyStr.find (key ++ "=") sig
       then dict_set key
              (unquote R (PyStr.drop (String.length (key ++ "=")) sig)) res
       else res)
    (map fst res) res.

Definition parse_signatureCipher (sig_ch : string) : dict :=
  let sig_ex := PyStr.split "&" sig_ch in
  fold_left (fun res sig => parse_piece sig res) sig_ex
    [("s", ""); ("url", "")].

(** [f.url is not None and f.url != ''] *)
Definition has_plain_url (f : Format) : bool :=
  match url f with
  | Some u => negb (String.eqb u "")
  | None => false
  end.

(** [_get_stream_url], with the depth of recursion left as its first
    argument. *)
Fixpoint _get_stream_url_rec (depth : nat) (f : Format) (video_id : string)
    (retry : bool) : M (option string) :=
  match depth with
  | O => raise RecursionError
  | S depth' =>
      if has_plain_url f then ret (url f)
      else
        sig_ch <- lift AttributeError (signatureCipher f) ;;
        let res := parse_signatureCipher sig_ch in
        js <- gets (@_js Cipher) ;;
        (if String.eqb js "" then _get_cipher video_id else ret tt) ;;;
        oc <- gets (@_cipher Cipher) ;;
        c <- lift AttributeError oc ;;
        signature <- get_signature c (dict_get "s" res) ;;
        let _url := dict_get "url" res ++ "&sig=" ++ signature in
        if retry then
          status_code <- head _url ;;
          (if status_code =? 403
           then ts <- get_signatureTimestamp ;;
                modify (set_signature_timestamp ts)
           else ret tt) ;;;
          _get_stream_url_rec depth' f video_id false
        else ret (Some _url)
  end.

(** The interpreter's recursion limit. *)
Definition recursion_limit : nat := 1000.

Definition _get_stream_url (f : Format) (video_id : string) (retry : bool)
  : M (option string) :=
  _get_stream_url_rec recursion_limit f video_id retry.

(** [stream_url] before decoration: the first format whose [itag] is the
    requested code decides. *)
Definition stream_url_func (video_id : string) (format_code : Z)
  : M (option string) :=
  song_info <- song_info video_id ;;
  let formats := adaptiveFormats (streamingData song_info) in
  match List.find (fun f => itag f =? format_code) formats with
  | Some f => _get_stream_url f video_id true
  | None => ret None
  end.

Definition stream_url (video_id : string) (format_code : Z)
  : M (option string) :=
  cached codec_url (hashkey "stream_url" [ASelf; AStr video_id; AInt format_code])
    (stream_url_func video_id format_code).

End Service.

Arguments Ok {A} a.
Arguments init Cipher t0 : clear implicits.

(* ================================================================== *)
(** ** The calls a client can make *)
(* ================================================================== *)

(** The methods of the service that touch the cache, the script or the
    signature timestamp, as data, so that one can quantify over them. *)
Inductive Call :=
| CallSetup
| CallArtistInfo (channel_id : string)
| CallArtistAlbums (channel_id params : string)
| CallUserInfo (channel_id : string)
| CallAlbumInfo (browse_id : string)
| CallSongInfo (video_id : string)
| CallCategories
| CallCategoryPlaylists (params : string)
| CallGetCharts (country : option string)
| CallStreamUrl (video_id : string) (format_code : Z)
| CallGetStreamUrl (f : Format) (video_id : string) (retry : bool).

(** The state the service is left in by a call, whether it returned or
    raised. *)
Definition run {Cipher} (R : Remote Cipher) (c : Call)
    (s : State Cipher) : State Cipher :=
  match c with
  | CallSetup => snd (setup R s)
  | CallArtistInfo ch => snd (artist_info R ch s)
  | CallArtistAlbums ch p => snd (artist_albums R ch p s)
  | CallUserInfo ch => snd (user_info R ch s)
  | CallAlbumInfo b => snd (album_info R b s)
  | CallSongInfo v => snd (song_info R v s)
  | CallCategories => snd (categories R s)
  | CallCategoryPlaylists p => snd (category_playlists R p s)
  | CallGetCharts c => snd (get_charts R c s)
  | CallStreamUrl v code => snd (stream_url R v code s)
  | CallGetStreamUrl f v retry => snd (_get_stream_url R f v retry s)
  end.

(** The capacity bound of the process-wide cache. *)
Definition bounded (c : TTLCache.t) : Prop :=
  TTLCache.maxsize c = 100%nat /\ TTLCache.ttl c = 600 /\
  (List.length (TTLCache.entries c) <= 100)%nat.

(** The key under which [stream_url] memoizes. *)
Definition stream_url_key (video_id : string) (format_code : Z) : Key :=
  hashkey "stream_url" [ASelf; AStr video_id; AInt format_code].

(* ================================================================== *)
(** ** A small world to run the service in *)
(* ================================================================== *)

Module Demo.

Fixpoint reverse (s : string) : string :=
  match s with
  | EmptyString => EmptyString
  | String c s' => reverse s' ++ String c EmptyString
  end.

Definition f251 : Format :=
  {| itag := 251; url := Some "https://x/plain"; signatureCipher := None |}.

Definition f250 : Format :=
  {| itag := 250; url := None;
     signatureCipher := Some "s=XYZ&url=https://y/base" |}.

Definition f249 : Format :=
  {| itag := 249; url := Some "";
     signatureCipher := Some "s=AB&url=https://y/base?ids=1" |}.

Definition abc123 : SongInfo :=
  {| streamingData := {| adaptiveFormats := [f251; f250; f249] |} |}.

(** A catalog that knows one track, a probe that always answers
    [status], a player script whose program reverses the signature (an
    empty script has no program), and a signature timestamp that changes
    with every interaction. *)
Definition remote (status : Z) : Remote unit :=
  {| api_get_signatureTimestamp := fun tr _ => Some (Z.of_nat (List.length tr));
     api_get_song := fun _ _ _ _ => Some abc123;
     api_call := fun _ _ endpoint _ => Some endpoint;
     session_head := fun _ _ => Some status;
     session_get := fun _ u => Some ("GET " ++ u);
     header_file := fun _ => None;
     latency := fun _ => 1%N;
     unquote := fun s => s;
     extract_js_url := fun _ => Some "https://www.youtube.com/base.js";
     Cipher_new := fun js => if String.eqb js "" then None else Some tt;
     Cipher_get_signature := fun _ s => reverse s |}.

(** The service right after construction. *)
Definition fresh (status : Z) : State unit :=
  snd (setup (remote status) (init unit 0)).

(** The service once a player script has been fetched. *)
Definition warm (status : Z) : State unit :=
  snd (_get_cipher (remote status) "abc123" (fresh status)).

(** A full cache of live entries, the least recently used first. *)
Definition entry (n : nat) : TTLCache.CachedEntry :=
  {| TTLCache.entry_key := hashkey "album_info" [ASelf; AInt (Z.of_nat n)];
     TTLCache.entry_value := VData "album";
     TTLCache.entry_time := Z.of_nat n |}.

Definition full : TTLCache.t :=
  {| TTLCache.maxsize := 100; TTLCache.ttl := 600;
     TTLCache.entries := map entry (seq 0 100) |}.

End Demo.

(* ================================================================== *)
(** ** Notions the statements are written with *)
(* ================================================================== *)

Section Notions.

Variable Cipher : Type.
Variable R : Remote Cipher.

(** What no pass of [_get_stream_url] touches or does, however it ends:
    the cache, the credentials, and no metadata is fetched. *)
Definition untouched (s s' : State Cipher) : Prop :=
  cache s' = cache s /\ _api_auth s' = _api_auth s /\
  count is_get_song (trace s') = count is_get_song (trace s).

(** The script and its program are the ones held before, and nothing was
    fetched over the session. *)
Definition same_script (s s' : State Cipher) : Prop :=
  _js s' = _js s /\ _cipher s' = _cipher s /\
  count is_get (trace s') = count is_get (trace s).

(** The URL a pass of [_get_stream_url] builds from a blob with the
    program [c]: [res['url'] + "&sig=" + signature]. *)
Definition signed_url (c : Cipher) (sig_ch : string) : string :=
  let res := parse_signatureCipher R sig_ch in
  dict_get "url" res ++ "&sig=" ++ Cipher_get_signature R c (dict_get "s" res).

(** A property of the service that an action keeps, however it ends. *)
Definition preserves {A} (P : State Cipher -> Prop) (m : M Cipher A) : Prop :=
  forall s, P s -> P (snd (m s)).

(** What is left of a read of the cache before the method body runs. *)
Definition after_lookup (k : Key) (s : State Cipher) : State Cipher :=
  set_cache (snd (TTLCache.get (now s) k (cache s))) s.

(** Properties of the service that survive everything except a fetch
    over the session: reads and writes of the cache, a change of the
    credentials or of the timestamp, any interaction other than a GET, and
    a resolution. *)
Record stable (P : State Cipher -> Prop) : Prop := {
  stable_get : forall s t k,
    P s -> P (set_cache (snd (TTLCache.get t k (cache s))) s);
  stable_set : forall s t k v,
    P s -> P (set_cache (TTLCache.set t k v (cache s)) s);
  stable_auth : forall s a, P s -> P (set_api_auth a s);
  stable_timestamp : forall s ts, P s -> P (set_signature_timestamp ts s);
  stable_event : forall s e, is_get e = false -> P s -> P (record R e s);
  stable_resolve : forall s f video_id retry,
    P s -> P (snd (_get_stream_url R f video_id retry s))
}.

(** The service holds the script [js] with the program [c] and has made
    [n] fetches over the session. *)
Definition holds_script (js : string) (c : option Cipher) (n : nat)
    (s : State Cipher) : Prop :=
  _js s = js /\ _cipher s = c /\ count is_get (trace s) = n.

End Notions.

(* ================================================================== *)
(** ** The rest of the service: search types and uncached methods *)
(* ================================================================== *)

Module YtmusicType.

Inductive t := so | vi | ar | al | pl.

Definition value (m : t) : string :=
  match m with
  | so => "songs"
  | vi => "videos"
  | ar => "artists"
  | al => "albums"
  | pl => "playlists"
  end.

(** The members in the order of their definition. *)
Definition members : list t := [so; vi; ar; al; pl].

(** [parse]: [cls._value2member_map_.get(type_.value + 's')], given the
    value of the [SearchType]. *)
Definition parse (type_value : string) : option t :=
  List.find (fun m => String.eqb (value m) (type_value ++ "s")) members.

End YtmusicType.

Module YtmusicScope.

Inductive t := li | up.

Definition value (m : t) : string :=
  match m with
  | li => "library"
  | up => "uploads"
  end.

End YtmusicScope.

Definition GLOBAL_LIMIT : Z := 20.

(** How arguments that are not strings appear among the arguments of an
    [EvApi]: an integer in decimal, [None] as the empty string (which is
    the value of no member of the two enumerations). *)
Definition int_arg (z : Z) : string := NilZero.string_of_int (Z.to_int z).

Definition opt_arg (o : option string) : string :=
  match o with
  | Some v => v
  | None => ""
  end.

Section ServiceRest.

Variable Cipher : Type.
Variable R : Remote Cipher.

(** [search]: [None if t is None else t.value], and the same for the
    scope. *)
Definition search (keywords : string) (t : option YtmusicType.t)
    (scope : option YtmusicScope.t) (page_size : Z) : M Cipher string :=
  api R "search"
    [keywords; opt_arg (option_map YtmusicType.value t);
     opt_arg (option_map YtmusicScope.value scope); int_arg page_size].

End ServiceRest.

(** The state after a sequence of calls, one after the other. *)
Definition run_calls {Cipher} (R : Remote Cipher) (calls : list Call)
    (s : State Cipher) : State Cipher :=
  fold_left (fun s c => run R c s) calls s.

(* ================================================================== *)
(** ** What the blob parser computes on well-formed pieces *)
(* ================================================================== *)

(** The value of the field [key] among the pieces of a blob: the decoded
    rest of the last piece that starts with [key=], or [init] when there
    is none. *)
Definition field_value {Cipher} (R : Remote Cipher) (key : string)
    (pieces : list string) (init : string) : string :=
  fold_left
    (fun acc p =>
       if PyStr.startswith (key ++ "=") p
       then unquote R (PyStr.drop (String.length (key ++ "=")) p)
       else acc)
    pieces init.

(** A piece that holds ["s="] or ["url="], if at all, at its start. *)
Definition clean_piece (p : string) : bool :=
  implb (0 <=? PyStr.find "s=" p) (PyStr.startswith "s=" p) &&
  implb (0 <=? PyStr.find "url=" p) (PyStr.startswith "url=" p).

(* ================================================================== *)
(** ** Values held by the cache *)
(* ================================================================== *)

(** The cache holds a value for the key that a read at time [t] sees. *)
Definition holds_value (k : Key) (v : Value) (t : Z) (c : TTLCache.t) : Prop :=
  exists e, TTLCache.lookup k (TTLCache.entries c) = Some e /\
            TTLCache.entry_value e = v /\
            t - TTLCache.entry_time e < TTLCache.ttl c.

(* ================================================================== *)
(** ** The provider *)
(* ================================================================== *)

(** What [fuo_ytmusic/models.py] and feeluown give the provider: they are
    not part of the sources at hand and are taken as parameters.  [None]
    stands for a call that raises. *)
Record Models := {
  (* SongInfo.get_media(quality) -> (format_code, bitrate, format_str) *)
  get_media : SongInfo -> string -> option (Z * Z * string);
  (* SongInfo.get_mv(quality) -> format_code *)
  get_mv : SongInfo -> string -> option Z;
  (* SongInfo.list_formats() *)
  list_formats : SongInfo -> list string;
  (* UserInfo.name, of the payload of get_user *)
  user_name : string -> string;
  (* feeluown's SearchType.parse(type_).value *)
  SearchType_parse : string -> option string
}.

Inductive ProviderExn :=
| ServiceError (e : Exn)   (* raised inside the service *)
| IndexError               (* [audio_formats[0]] on an empty list *)
| ModelError               (* raised by a model or by feeluown *)
| ProviderAttributeError.  (* [ytmusic_type.value] on [None] *)

Inductive ProviderResult (A : Type) :=
| Returns (a : A)
| Raises (e : ProviderExn).
Arguments Raises {A} e.
Arguments Returns {A} a.

(** [Media(url, type_=MediaType.audio, bitrate=..., format=...)] and
    [Media(VideoAudioManifest(url, audio_url))]. *)
Inductive Media :=
| AudioMedia (url : string) (bitrate : Z) (format : string)
| ManifestMedia (url audio_url : string).

(** [SearchModel(q=keyword)] with the results set on the attribute named
    by the value of the type. *)
Record SearchModel := {
  search_q : string;
  search_attribute : string;
  search_results : string
}.

Module YtmusicProvider.

Section Provider.

Variable Cipher : Type.
Variable R : Remote Cipher.
Variable Md : Models.

Definition PM (A : Type) : Type :=
  State Cipher -> ProviderResult A * State Cipher.

Definition pret {A} (a : A) : PM A := fun s => (Returns a, s).

Definition praise {A} (e : ProviderExn) : PM A := fun s => (Raises e, s).

Definition pbind {A B} (m : PM A) (k : A -> PM B) : PM B :=
  fun s =>
    match m s with
    | (Returns a, s') => k a s'
    | (Raises e, s') => (Raises e, s')
    end.

(** A call into the service. *)
Definition service {A} (m : M Cipher A) : PM A :=
  fun s =>
    match m s with
    | (Ok a, s') => (Returns a, s')
    | (Raise e, s') => (Raises (ServiceError e), s')
    end.

Definition plift {A} (e : ProviderExn) (o : option A) : PM A :=
  match o with
  | Some a => pret a
  | None => praise e
  end.

Local Notation "x <- m ;; k" := (pbind m (fun x => k))
  (at level 61, m at next level, right associativity).

(** The setter of [user]: [setup] runs before the user is recorded.  The
    provider's [_user] is the second component. *)
Definition set_user (user : string) (p : State Cipher * option string)
  : ProviderResult unit * (State Cipher * option string) :=
  match service (setup R) (fst p) with
  | (Returns _, s') => (Returns tt, (s', Some user))
  | (Raises e, s') => (Raises e, (s', snd p))
  end.

Definition provider_search (keyword type_ : string) : PM SearchModel :=
  type_value <- plift ModelError (SearchType_parse Md type_) ;;
  let ytmusic_type := YtmusicType.parse type_value in
  results <- service (search R keyword ytmusic_type None GLOBAL_LIMIT) ;;
  match ytmusic_type with
  | Some t =>
      pret {| search_q := keyword;
              search_attribute := YtmusicType.value t;
              search_results := results |}
  | None => praise ProviderAttributeError
  end.

Definition song_get_media (song_identifier quality : string)
  : PM (option Media) :=
  info <- service (song_info R song_identifier) ;;
  m <- plift ModelError (get_media Md info quality) ;;
  let '(format_code, bitrate, format_str) := m in
  u <- service (stream_url R song_identifier format_code) ;;
  pret (match u with
        | Some u' => Some (AudioMedia u' bitrate format_str)
        | None => None
        end).

Definition video_get_media (video_identifier quality : string)
  : PM (option Media) :=
  info <- service (song_info R video_identifier) ;;
  format_code <- plift ModelError (get_mv Md info quality) ;;
  let audio_formats := list_formats Md info in
  q0 <- plift IndexError (List.hd_error audio_formats) ;;
  m <- plift ModelError (get_media Md info q0) ;;
  let '(audio_code, _, _) := m in
  u <- service (stream_url R video_identifier format_code) ;;
  audio_url <- service (stream_url R video_identifier audio_code) ;;
  pret (match u, audio_url with
        | Some u', Some a' => Some (ManifestMedia u' a')
        | _, _ => None
        end).

End Provider.

End YtmusicProvider.

(* ================================================================== *)
(** ** More of the small world *)
(* ================================================================== *)

Module Demo2.

(** A world like [Demo.remote 200] whose player script is not
    recognised. *)
Definition broken : Remote unit :=
  {| api_get_signatureTimestamp := fun tr _ => Some (Z.of_nat (List.length tr));
     api_get_song := fun _ _ _ _ => Some Demo.abc123;
     api_call := fun _ _ endpoint _ => Some endpoint;
     session_head := fun _ _ => Some 200;
     session_get := fun _ u => Some ("GET " ++ u);
     header_file := fun _ => None;
     latency := fun _ => 1%N;
     unquote := fun s => s;
     extract_js_url := fun _ => Some "https://www.youtube.com/base.js";
     Cipher_new := fun _ => None;
     Cipher_get_signature := fun _ s => Demo.reverse s |}.

(** A world like [Demo.remote 200] whose catalog is down. *)
Definition offline : Remote unit :=
  {| api_get_signatureTimestamp := fun _ _ => None;
     api_get_song := fun _ _ _ _ => None;
     api_call := fun _ _ _ _ => None;
     session_head := fun _ _ => Some 200;
     session_get := fun _ u => Some ("GET " ++ u);
     header_file := fun _ => Some "headers_auth.json";
     latency := fun _ => 1%N;
     unquote := fun s => s;
     extract_js_url := fun _ => Some "https://www.youtube.com/base.js";
     Cipher_new := fun js => if String.eqb js "" then None else Some tt;
     Cipher_get_signature := fun _ s => Demo.reverse s |}.

(** A descriptor with neither a plain URL nor a blob. *)
Definition f_none : Format :=
  {| itag := 248; url := None; signatureCipher := None |}.

(** A blob with a field the service does not use. *)
Definition f_sp : Format :=
  {| itag := 247; url := None;
     signatureCipher := Some "s=XYZ&sp=sig&url=https://y/base" |}.

(** A blob without the field of the URL. *)
Definition f_nourl : Format :=
  {| itag := 246; url := None; signatureCipher := Some "s=XYZ&sp=sig" |}.

(** Models that offer one audio quality, with format code 250 for it and
    251 for videos. *)
Definition models : Models :=
  {| get_media := fun _ _ => Some (250, 128, "webm");
     get_mv := fun _ _ => Some 251;
     list_formats := fun _ => ["hq"];
     user_name := fun payload => payload;
     SearchType_parse := fun t => Some t |}.

(** Models that offer no audio quality. *)
Definition silent : Models :=
  {| get_media := fun _ _ => Some (250, 128, "webm");
     get_mv := fun _ _ => Some 251;
     list_formats := fun _ => [];
     user_name := fun payload => payload;
     SearchType_parse := fun t => Some t |}.

End Demo2.

(* ================================================================== *)
(** ** Facts about keys and the cache *)
(* ================================================================== *)

Lemma Arg_eqb_refl (a : Arg) : Arg_eqb a a = true.
Proof.
  destruct a; simpl.
  - reflexivity.
  - apply String.eqb_refl.
  - apply Z.eqb_refl.
Qed.

Lemma Key_eqb_refl (k : Key) : Key_eqb k k = true.
Proof.
  induction k as [|a k IH]; simpl.
  - reflexivity.
  - now rewrite Arg_eqb_refl, IH.
Qed.

Module TTLCacheFacts.
Import TTLCache.

Lemma lookup_remove k es : lookup k (remove k es) = None.
Proof.
  unfold lookup, remove.
  induction es as [|e es IH]; simpl.
  - reflexivity.
  - destruct (has_key k e) eqn:E; simpl.
    + exact IH.
    + now rewrite E.
Qed.

Lemma lookup_filter_none p k es :
  lookup k es = None -> lookup k (filter p es) = None.
Proof.
  unfold lookup.
  induction es as [|e es IH]; simpl; intros H.
  - reflexivity.
  - destruct (has_key k e) eqn:E; [discriminate|].
    destruct (p e); simpl; [rewrite E|]; auto.
Qed.

Lemma lookup_skipn_none n k es :
  lookup k es = None -> lookup k (skipn n es) = None.
Proof.
  unfold lookup.
  revert es; induction n as [|n IH]; intros [|e es] H; simpl; auto.
  simpl in H. destruct (has_key k e); [discriminate|]. now apply IH.
Qed.

Lemma remove_id k es : lookup k es = None -> remove k es = es.
Proof.
  unfold lookup, remove.
  induction es as [|e es IH]; simpl; intros H.
  - reflexivity.
  - destruct (has_key k e); [discriminate|]. simpl. now rewrite IH.
Qed.

Lemma lookup_snoc k es e :
  lookup k es = None -> has_key k e = true -> lookup k (es ++ [e]) = Some e.
Proof.
  unfold lookup.
  induction es as [|x es IH]; simpl; intros H He.
  - now rewrite He.
  - destruct (has_key k x); [discriminate|]. now apply IH.
Qed.

Lemma remove_snoc k es e :
  lookup k es = None -> has_key k e = true -> remove k (es ++ [e]) = es.
Proof.
  intros H He. unfold remove. rewrite filter_app. simpl. rewrite He. simpl.
  rewrite app_nil_r. now apply remove_id.
Qed.

Lemma length_remove k es : (List.length (remove k es) <= List.length es)%nat.
Proof. apply filter_length_le. Qed.

Lemma length_evict_lru n es : (List.length (evict_lru n es) <= n)%nat.
Proof. unfold evict_lru. rewrite length_skipn. lia. Qed.

(** The entries a write keeps hold no entry for the written key. *)
Lemma set_kept_lacks_key now k c :
  lookup k
    (evict_lru (maxsize c - 1)
       (if (maxsize c <=? List.length (remove k (entries c)))%nat
        then filter (live c now) (remove k (entries c))
        else remove k (entries c))) = None.
Proof.
  apply lookup_skipn_none.
  destruct (maxsize c <=? _)%nat.
  - apply lookup_filter_none, lookup_remove.
  - apply lookup_remove.
Qed.

Lemma has_key_new now k v :
  has_key k {| entry_key := k; entry_value := v; entry_time := now |} = true.
Proof. apply Key_eqb_refl. Qed.

(** A read after a write of the same key, within the TTL: a hit on the
    written value, and the cache is as the write left it. *)
Lemma get_after_set now now' k v c :
  now' - now < ttl c ->
  get now' k (set now k v c) = (Some v, set now k v c).
Proof.
  intros Hlive. unfold get, set, with_entries. cbn [entries ttl maxsize].
  rewrite (@lookup_snoc _ _ _ (set_kept_lacks_key now k c) (has_key_new now k v)).
  unfold live at 1. cbn [entry_time ttl entry_value].
  destruct (Z.ltb_spec (now' - now) (ttl c)); [|lia].
  rewrite (@remove_snoc _ _ _ (set_kept_lacks_key now k c) (has_key_new now k v)).
  reflexivity.
Qed.

(** A read after a write of the same key, once the TTL has elapsed: a
    miss. *)
Lemma get_expired_after_set now now' k v c :
  ttl c <= now' - now ->
  fst (get now' k (set now k v c)) = None.
Proof.
  intros Hdead. unfold get, set, with_entries. cbn [entries ttl maxsize].
  rewrite (@lookup_snoc _ _ _ (set_kept_lacks_key now k c) (has_key_new now k v)).
  unfold live at 1. cbn [entry_time ttl entry_value].
  destruct (Z.ltb_spec (now' - now) (ttl c)); [lia|].
  reflexivity.
Qed.

Lemma set_params now k v c :
  maxsize (set now k v c) = maxsize c /\ ttl (set now k v c) = ttl c.
Proof. split; reflexivity. Qed.

Lemma get_params now k c :
  maxsize (snd (get now k c)) = maxsize c /\ ttl (snd (get now k c)) = ttl c.
Proof.
  unfold get. destruct (lookup k (entries c)) as [e|]; [|split; reflexivity].
  destruct (live c now e); split; reflexivity.
Qed.

Lemma set_length now k v c :
  (1 <= maxsize c)%nat ->
  (List.length (entries (set now k v c)) <= maxsize c)%nat.
Proof.
  intros H. unfold set, with_entries. cbn [entries maxsize].
  rewrite length_app. simpl.
  pose proof (length_evict_lru (maxsize c - 1)
    (if (maxsize c <=? List.length (remove k (entries c)))%nat
     then filter (live c now) (remove k (entries c))
     else remove k (entries c))).
  lia.
Qed.

Lemma get_length now k c :
  (List.length (entries (snd (get now k c))) <= List.length (entries c))%nat.
Proof.
  unfold get. destruct (lookup k (entries c)) as [e|] eqn:E; [|simpl; lia].
  destruct (live c now e); unfold with_entries; cbn [snd entries].
  - rewrite length_app. simpl.
    assert (List.length (remove k (entries c)) < List.length (entries c))%nat;
      [|lia].
    clear -E. unfold lookup, remove in *.
    induction (entries c) as [|x es IH]; simpl in *; [discriminate|].
    destruct (has_key k x); simpl.
    + pose proof (filter_length_le (fun e => negb (has_key k e)) es). lia.
    + apply IH in E. lia.
  - apply length_remove.
Qed.

End TTLCacheFacts.

Lemma bounded_set now k v c :
  bounded c -> bounded (TTLCache.set now k v c).
Proof.
  intros (Hm & Ht & Hl). unfold bounded.
  destruct (TTLCacheFacts.set_params now k v c) as [-> ->].
  repeat split; auto.
  rewrite <- Hm. apply TTLCacheFacts.set_length. lia.
Qed.

Lemma bounded_get now k c :
  bounded c -> bounded (snd (TTLCache.get now k c)).
Proof.
  intros (Hm & Ht & Hl). unfold bounded.
  destruct (TTLCacheFacts.get_params now k c) as [-> ->].
  repeat split; auto.
  pose proof (TTLCacheFacts.get_length now k c). lia.
Qed.

(* ================================================================== *)
(** ** Facts about the service *)
(* ================================================================== *)

Lemma count_snoc p tr e :
  count p (tr ++ [e]) = (count p tr + (if p e then 1 else 0))%nat.
Proof.
  unfold count. rewrite filter_app, length_app. simpl.
  now destruct (p e).
Qed.

(** Runs the monadic code as far as the answers of the collaborators are
    known. *)
Ltac run_monad :=
  cbv beta iota zeta delta
    [bind ret raise gets modify lift remote head get get_signature
     get_signatureTimestamp get_song api _get_cipher _get_stream_url_rec
     song_info_func get_charts_func setup];
  cbn [trace record set_js set_cipher set_signature_timestamp set_api_auth
       set_cache _js _cipher _signature_timestamp _api_auth cache now].

(** Case analysis on an answer the code is waiting for. *)
Ltac break_match :=
  match goal with
  | |- context [match ?x with _ => _ end] =>
      lazymatch x with
      | context [match _ with _ => _ end] => fail
      | _ => destruct x eqn:?
      end
  end.

Ltac run_all := run_monad; repeat (break_match; run_monad).

(** Closes a goal about the effects of a sequence of steps from the
    effects of each step. *)
Ltac combine_effects :=
  unfold untouched, same_script in *;
  cbn [trace record set_js set_cipher set_signature_timestamp set_api_auth
       set_cache _js _cipher _signature_timestamp _api_auth cache fst snd]
    in *;
  rewrite ?count_snoc in *;
  cbn [is_head is_get is_signature is_get_song is_refresh] in *;
  repeat split; intros;
  repeat match goal with
         | H : _ /\ _ |- _ => destruct H
         end;
  repeat match goal with
         | H : ?P -> _ |- _ =>
             let HP := fresh in
             assert (HP : P) by congruence; specialize (H HP);
             destruct H as (? & ? & ?)
         end;
  congruence || lia.

Ltac count_events :=
  cbn [trace record set_js set_cipher set_signature_timestamp set_api_auth
       set_cache _js _cipher _signature_timestamp _api_auth cache fst snd];
  rewrite ?count_snoc;
  cbn [is_head is_get is_signature is_get_song is_refresh].

Section ServiceFacts.

Variable Cipher : Type.
Variable R : Remote Cipher.

Let St := State Cipher.

Lemma _get_stream_url_rec_no_retry n f video_id :
  _get_stream_url_rec R (S n) f video_id false
  = _get_stream_url_rec R 1 f video_id false.
Proof. reflexivity. Qed.

(** A descriptor with a plain URL: nothing happens at all. *)
Lemma _get_stream_url_rec_plain n f video_id retry (s : St) :
  has_plain_url f = true ->
  _get_stream_url_rec R (S n) f video_id retry s = (Ok (url f), s).
Proof. intros H. simpl. now rewrite H. Qed.

(** One pass without probe, whatever its outcome. *)
Lemma pass_effects f video_id (s : St) :
  let s1 := snd (_get_stream_url_rec R 1 f video_id false s) in
  untouched s s1 /\
  _signature_timestamp s1 = _signature_timestamp s /\
  count is_refresh (trace s1) = count is_refresh (trace s) /\
  count is_head (trace s1) = count is_head (trace s) /\
  (count is_signature (trace s1) <= count is_signature (trace s) + 1)%nat /\
  (String.eqb (_js s) "" = false -> same_script s s1).
Proof.
  unfold untouched, same_script. run_all;
    count_events; repeat split; try lia; try congruence.
Qed.

(** The shape of a resolution with probe: a pass, the probe, a refresh of
    the timestamp if the probe was forbidden, and in any case a second
    pass, whose outcome is the outcome of the whole. *)
Lemma _get_stream_url_rec_retry n f video_id (s : St) :
  has_plain_url f = false ->
  _get_stream_url_rec R (S (S n)) f video_id true s =
  match _get_stream_url_rec R 1 f video_id false s with
  | (Ok (Some u), s1) =>
      match head R u s1 with
      | (Ok status_code, s2) =>
          if status_code =? 403 then
            match get_signatureTimestamp R s2 with
            | (Ok ts, s3) =>
                _get_stream_url_rec R 1 f video_id false
                  (set_signature_timestamp ts s3)
            | (Raise e, s3) => (Raise e, s3)
            end
          else _get_stream_url_rec R 1 f video_id false s2
      | (Raise e, s2) => (Raise e, s2)
      end
  | (Ok None, s1) => (Ok None, s1)
  | (Raise e, s1) => (Raise e, s1)
  end.
Proof.
  intros Hf. run_monad. rewrite Hf.
  destruct (signatureCipher f) as [sig_ch|]; [|reflexivity].
  run_all; reflexivity.
Qed.

Lemma _get_stream_url_unfold f video_id retry :
  _get_stream_url R f video_id retry
  = _get_stream_url_rec R (S (S 998)) f video_id retry.
Proof. reflexivity. Qed.

(** Two levels of recursion are all a resolution ever uses. *)
Lemma _get_stream_url_rec_depth n f video_id retry (s : St) :
  _get_stream_url_rec R (S (S n)) f video_id retry s
  = _get_stream_url R f video_id retry s.
Proof.
  rewrite _get_stream_url_unfold.
  destruct retry; [|reflexivity].
  destruct (has_plain_url f) eqn:Hf.
  - now rewrite !_get_stream_url_rec_plain.
  - now rewrite !_get_stream_url_rec_retry.
Qed.

(** A pass without probe that returns has built its URL from the blob of
    the descriptor and the program held afterwards, and has run the
    cipher once; if no script was held, it has fetched the embed page and
    the script, and the program is the one built from that script. *)
Lemma pass_result f video_id (s s1 : St) r :
  has_plain_url f = false ->
  _get_stream_url_rec R 1 f video_id false s = (Ok r, s1) ->
  exists sig_ch c,
    signatureCipher f = Some sig_ch /\ _cipher s1 = Some c /\
    r = Some (signed_url R c sig_ch) /\
    count is_signature (trace s1) = (count is_signature (trace s) + 1)%nat /\
    (String.eqb (_js s) "" = true ->
     count is_get (trace s1) = (count is_get (trace s) + 2)%nat /\
     Cipher_new R (_js s1) = Some c).
Proof.
  intros Hf. run_monad. rewrite Hf.
  destruct (signatureCipher f) as [sig_ch|]; [|discriminate].
  run_all; intros H; inversion H; subst; clear H;
    exists sig_ch; eexists; count_events; repeat split;
    try reflexivity; try lia; try assumption; congruence.
Qed.

(** A pass without probe when a script is held: the cipher runs once on
    the signature field of the blob and nothing else happens. *)
Lemma pass_warm f video_id (s : St) sig_ch c :
  has_plain_url f = false ->
  signatureCipher f = Some sig_ch ->
  String.eqb (_js s) "" = false ->
  _cipher s = Some c ->
  _get_stream_url_rec R 1 f video_id false s
  = (Ok (Some (signed_url R c sig_ch)),
     record R (EvSignature (dict_get "s" (parse_signatureCipher R sig_ch))) s).
Proof.
  intros Hf Hsig Hjs Hc. run_monad. now rewrite Hf, Hsig, Hjs, Hc.
Qed.

(** A resolution, with or without probe and however it ends: at most one
    probe, at most two runs of the cipher, at most one refresh of the
    timestamp; the cache and the credentials are left alone and no
    metadata is fetched; and when a script is held it is neither fetched
    nor rebuilt. *)
Lemma resolve_effects f video_id retry (s : St) :
  let s' := snd (_get_stream_url R f video_id retry s) in
  untouched s s' /\
  (count is_head (trace s') <= count is_head (trace s) + 1)%nat /\
  (count is_signature (trace s') <= count is_signature (trace s) + 2)%nat /\
  (count is_refresh (trace s') <= count is_refresh (trace s) + 1)%nat /\
  (String.eqb (_js s) "" = false -> same_script s s').
Proof.
  rewrite _get_stream_url_unfold.
  destruct retry.
  2:{ rewrite _get_stream_url_rec_no_retry.
      pose proof (pass_effects f video_id s) as P1. cbv zeta in *.
      unfold untouched, same_script in *. combine_effects. }
  destruct (has_plain_url f) eqn:Hf.
  { rewrite _get_stream_url_rec_plain by assumption. cbn [snd].
    unfold untouched, same_script. repeat split; lia. }
  rewrite _get_stream_url_rec_retry by assumption.
  pose proof (pass_effects f video_id s) as P1. cbv zeta in P1.
  destruct (_get_stream_url_rec R 1 f video_id false s) as [r1 s1].
  cbn [snd] in P1. unfold untouched, same_script in *.
  destruct r1 as [[u|]|e]; cbv zeta; cbn [snd]; try combine_effects.
  unfold head, get_signatureTimestamp, remote.
  destruct (session_head R (trace s1) u) as [status_code|];
    [|count_events; combine_effects].
  destruct (status_code =? 403).
  - destruct (api_get_signatureTimestamp R _ _) as [ts|];
      [|count_events; combine_effects].
    pose proof (pass_effects f video_id
      (set_signature_timestamp ts
         (record R EvGetSignatureTimestamp (record R (EvHead u) s1)))) as P2.
    cbv zeta in P2.
    destruct (_get_stream_url_rec R 1 f video_id false _) as [r2 s2].
    cbn [snd] in *. revert P2. count_events. intros P2. combine_effects.
  - pose proof (pass_effects f video_id (record R (EvHead u) s1)) as P2.
    cbv zeta in P2.
    destruct (_get_stream_url_rec R 1 f video_id false _) as [r2 s2].
    cbn [snd] in *. revert P2. count_events. intros P2. combine_effects.
Qed.

(** *** The decorator *)

Lemma cached_miss A (cd : Codec A) k (func : M Cipher A) (s : St) :
  fst (TTLCache.get (now s) k (cache s)) = None ->
  cached cd k func s =
  match func (after_lookup k s) with
  | (Ok a, s1) =>
      (Ok a, set_cache (TTLCache.set (now s1) k (inj cd a) (cache s1)) s1)
  | (Raise e, s1) => (Raise e, s1)
  end.
Proof.
  unfold cached, after_lookup.
  destruct (TTLCache.get (now s) k (cache s)) as [hit c]. cbn [fst snd].
  now intros ->.
Qed.

Lemma cached_hit A (cd : Codec A) k (func : M Cipher A) (s : St) v a :
  fst (TTLCache.get (now s) k (cache s)) = Some v ->
  proj cd v = Some a ->
  cached cd k func s = (Ok a, after_lookup k s).
Proof.
  unfold cached, after_lookup.
  destruct (TTLCache.get (now s) k (cache s)) as [hit c]. cbn [fst snd].
  now intros -> ->.
Qed.

(** Right after a call that computed and stored, a second call within the
    TTL is a hit that leaves the service as it was, whatever the method
    body would do. *)
Lemma cached_again A (cd : Codec A) k (func : M Cipher A) (s1 : St) a d :
  (forall x, proj cd (inj cd x) = Some x) ->
  d < TTLCache.ttl (cache s1) ->
  let s2 := set_cache (TTLCache.set (now s1) k (inj cd a) (cache s1)) s1 in
  cached cd k func (sleep d s2) = (Ok a, sleep d s2).
Proof.
  intros Hcd Hd s2.
  assert (Hget : TTLCache.get (now (sleep d s2)) k (cache (sleep d s2))
                 = (Some (inj cd a), cache s2)).
  { subst s2. cbn [now cache sleep set_cache].
    apply TTLCacheFacts.get_after_set. lia. }
  rewrite (@cached_hit _ cd k func (sleep d s2) (inj cd a) a).
  - unfold after_lookup. rewrite Hget. subst s2. reflexivity.
  - now rewrite Hget.
  - apply Hcd.
Qed.

(** Once the TTL has elapsed the call is a miss again. *)
Lemma cached_expired A (cd : Codec A) k (s1 : St) (a : A) d :
  TTLCache.ttl (cache s1) <= d ->
  let s2 := set_cache (TTLCache.set (now s1) k (inj cd a) (cache s1)) s1 in
  fst (TTLCache.get (now (sleep d s2)) k (cache (sleep d s2))) = None.
Proof.
  intros Hd s2. subst s2. cbn [now cache sleep set_cache].
  apply TTLCacheFacts.get_expired_after_set. lia.
Qed.

(** *** Properties kept by every call *)

Lemma preserves_bind A B P (m : M Cipher A) (k : A -> M Cipher B) :
  preserves P m -> (forall a, preserves P (k a)) -> preserves P (bind m k).
Proof.
  intros Hm Hk s Hs. unfold bind.
  specialize (Hm s Hs). destruct (m s) as [[a|e] s']; cbn [snd] in *.
  - now apply Hk.
  - assumption.
Qed.

Lemma preserves_cached A P (cd : Codec A) k (func : M Cipher A) :
  stable R P -> preserves P func -> preserves P (cached cd k func).
Proof.
  intros HP Hf s Hs. unfold cached.
  pose proof (stable_get HP s (now s) k Hs) as Hg.
  destruct (TTLCache.get (now s) k (cache s)) as [[v|] c]; cbn [snd] in Hg.
  - now destruct (proj cd v).
  - specialize (Hf _ Hg).
    destruct (func (set_cache c s)) as [[a|e] s1]; cbn [snd] in *.
    + now apply (stable_set HP).
    + assumption.
Qed.

Lemma preserves_remote A P e (answer : St -> option A) :
  stable R P -> is_get e = false -> preserves P (remote R e answer).
Proof.
  intros HP He s Hs. unfold remote.
  destruct (answer s); cbn [snd]; now apply (stable_event HP).
Qed.

Lemma preserves_api P endpoint args :
  stable R P -> preserves P (api R endpoint args).
Proof. intros HP. now apply preserves_remote. Qed.

Lemma preserves_song_info_func P video_id :
  stable R P -> preserves P (song_info_func R video_id).
Proof.
  intros HP s Hs. unfold song_info_func, gets, bind, get_song.
  now apply preserves_remote.
Qed.

Lemma preserves_get_charts_func P country :
  stable R P -> preserves P (get_charts_func R country).
Proof.
  intros HP s Hs. unfold get_charts_func, gets, modify, bind, ret, api.
  pose proof (@preserves_remote string P (EvApi "get_charts" [country])
    (fun s0 => api_call R (trace s0) (_api_auth s0) "get_charts" [country])
    HP eq_refl (set_api_auth None s) (stable_auth HP s None Hs)) as H.
  destruct (remote R _ _ (set_api_auth None s)) as [[a|e] s']; cbn [snd] in *.
  - now apply (stable_auth HP).
  - assumption.
Qed.

Lemma preserves_setup P : stable R P -> preserves P (setup R).
Proof.
  intros HP s Hs. unfold setup, gets, modify, bind, get_signatureTimestamp.
  pose proof (@preserves_remote Z P EvGetSignatureTimestamp
    (fun s0 => api_get_signatureTimestamp R (trace s0) (_api_auth s0))
    HP eq_refl _ (stable_auth HP s (header_file R (trace s)) Hs)) as H.
  destruct (remote R _ _ _) as [[ts|e] s']; cbn [snd] in *.
  - now apply (stable_timestamp HP).
  - assumption.
Qed.

Lemma preserves_stream_url_func P video_id format_code :
  stable R P -> preserves P (stream_url_func R video_id format_code).
Proof.
  intros HP. unfold stream_url_func.
  apply preserves_bind.
  - apply preserves_cached; [assumption|]. now apply preserves_song_info_func.
  - intros si.
    destruct (List.find _ _) as [f|].
    + intros s Hs. now apply (stable_resolve HP).
    + intros s Hs. assumption.
Qed.

(** Every call of the service keeps every stable property. *)
Lemma run_stable P (c : Call) (s : St) :
  stable R P -> P s -> P (run R c s).
Proof.
  intros HP Hs.
  destruct c; cbn [run];
    unfold artist_info, artist_albums, user_info, album_info, song_info,
      categories, category_playlists, get_charts, stream_url.
  - now apply preserves_setup.
  - apply preserves_cached; auto using preserves_api.
  - apply preserves_cached; auto using preserves_api.
  - apply preserves_cached; auto using preserves_api.
  - apply preserves_cached; auto using preserves_api.
  - apply preserves_cached; auto using preserves_song_info_func.
  - apply preserves_cached; auto using preserves_api.
  - apply preserves_cached; auto using preserves_api.
  - destruct country; apply preserves_cached;
      auto using preserves_get_charts_func.
  - apply preserves_cached; auto using preserves_stream_url_func.
  - now apply (stable_resolve HP).
Qed.

(** The capacity bound is stable. *)
Lemma stable_bounded : stable R (fun s => bounded (cache s)).
Proof.
  split; intros; cbn [cache set_cache set_api_auth set_signature_timestamp
                      record]; auto.
  - now apply bounded_get.
  - now apply bounded_set.
  - destruct (resolve_effects f video_id retry s) as ((-> & _) & _).
    assumption.
Qed.

(** Holding a non-empty script is stable. *)
Lemma stable_holds_script js c n :
  String.eqb js "" = false -> stable R (holds_script js c n).
Proof.
  intros Hjs. unfold holds_script.
  split; intros s; intros;
    cbn [_js _cipher trace set_cache set_api_auth set_signature_timestamp
         record]; auto.
  - rewrite count_snoc.
    match goal with H : is_get _ = false |- _ => rewrite H end.
    repeat split; try apply H0. destruct H0 as (_ & _ & <-). lia.
  - destruct H as (Hj & Hc & Hn).
    destruct (resolve_effects f video_id retry s) as (_ & _ & _ & _ & Hs).
    destruct Hs as (-> & -> & ->); [congruence|]. now repeat split.
Qed.

(** *** Resolutions that return *)

(** A resolution with probe that returns went through a first pass that
    built a URL, a probe that was answered, a refresh exactly if the
    answer was 403, and a second pass without probe, whose result it
    returns. *)
Lemma retry_result f video_id (s s' : St) r :
  has_plain_url f = false ->
  _get_stream_url R f video_id true s = (Ok r, s') ->
  exists u1 s1 status_code s2,
    _get_stream_url_rec R 1 f video_id false s = (Ok (Some u1), s1) /\
    session_head R (trace s1) u1 = Some status_code /\
    (if status_code =? 403
     then exists ts,
         api_get_signatureTimestamp R (trace s1 ++ [EvHead u1]) (_api_auth s1)
         = Some ts /\
         s2 = set_signature_timestamp ts
                (record R EvGetSignatureTimestamp (record R (EvHead u1) s1))
     else s2 = record R (EvHead u1) s1) /\
    _get_stream_url_rec R 1 f video_id false s2 = (Ok r, s').
Proof.
  intros Hf. rewrite _get_stream_url_unfold, _get_stream_url_rec_retry by assumption.
  destruct (_get_stream_url_rec R 1 f video_id false s) as [[[u1|]|e] s1] eqn:P1;
    try discriminate.
  - unfold head, get_signatureTimestamp, remote.
    destruct (session_head R (trace s1) u1) as [status_code|] eqn:Hh;
      [|discriminate].
    destruct (status_code =? 403) eqn:H403.
    + cbn [trace _api_auth record].
      destruct (api_get_signatureTimestamp R _ _) as [ts|] eqn:Hts;
        [|discriminate].
      intros P2. exists u1, s1, status_code. eexists. rewrite H403.
      split; [reflexivity|]. split; [exact Hh|].
      split; [exists ts; split; [exact Hts|reflexivity]|exact P2].
    + intros P2. exists u1, s1, status_code. eexists. rewrite H403.
      split; [reflexivity|]. split; [exact Hh|].
      split; [reflexivity|exact P2].
  - destruct (pass_result f video_id s Hf P1) as (? & ? & _ & _ & ? & _).
    discriminate.
Qed.

(** The other way round: the resolution when the probe is forbidden. *)
Lemma retry_forbidden f video_id (s s1 : St) u1 ts :
  has_plain_url f = false ->
  _get_stream_url_rec R 1 f video_id false s = (Ok (Some u1), s1) ->
  session_head R (trace s1) u1 = Some 403 ->
  api_get_signatureTimestamp R (trace s1 ++ [EvHead u1]) (_api_auth s1)
  = Some ts ->
  _get_stream_url R f video_id true s
  = _get_stream_url_rec R 1 f video_id false
      (set_signature_timestamp ts
         (record R EvGetSignatureTimestamp (record R (EvHead u1) s1))).
Proof.
  intros Hf P1 Hh Hts.
  rewrite _get_stream_url_unfold, _get_stream_url_rec_retry, P1 by assumption.
  unfold head, get_signatureTimestamp, remote. rewrite Hh.
  cbn [Z.eqb Pos.eqb trace _api_auth record]. now rewrite Hts.
Qed.

(** The resolution when the probe is not forbidden. *)
Lemma retry_allowed f video_id (s s1 : St) u1 status_code :
  has_plain_url f = false ->
  _get_stream_url_rec R 1 f video_id false s = (Ok (Some u1), s1) ->
  session_head R (trace s1) u1 = Some status_code ->
  (status_code =? 403) = false ->
  _get_stream_url R f video_id true s
  = _get_stream_url_rec R 1 f video_id false (record R (EvHead u1) s1).
Proof.
  intros Hf P1 Hh H403.
  rewrite _get_stream_url_unfold, _get_stream_url_rec_retry, P1 by assumption.
  unfold head, remote. now rewrite Hh, H403.
Qed.

(** No pass runs out of recursion depth. *)
Lemma pass_no_RecursionError f video_id (s : St) :
  fst (_get_stream_url_rec R 1 f video_id false s) <> Raise RecursionError.
Proof. run_all; cbn [fst]; discriminate. Qed.

Lemma resolve_no_RecursionError f video_id retry (s : St) :
  fst (_get_stream_url R f video_id retry s) <> Raise RecursionError.
Proof.
  rewrite _get_stream_url_unfold. destruct retry.
  2:{ rewrite _get_stream_url_rec_no_retry. apply pass_no_RecursionError. }
  destruct (has_plain_url f) eqn:Hf.
  { rewrite _get_stream_url_rec_plain by assumption. discriminate. }
  rewrite _get_stream_url_rec_retry by assumption.
  destruct (_get_stream_url_rec R 1 f video_id false s) as [[[u1|]|e] s1] eqn:P1;
    cbn [fst]; try discriminate.
  - unfold head, get_signatureTimestamp, remote.
    destruct (session_head R (trace s1) u1); [|discriminate].
    destruct (_ =? 403).
    + destruct (api_get_signatureTimestamp R _ _); [|discriminate].
      apply pass_no_RecursionError.
    + apply pass_no_RecursionError.
  - pose proof (pass_no_RecursionError f video_id s) as H.
    rewrite P1 in H. exact H.
Qed.

(** [song_info] talks to the catalog at most once and to nobody else, and
    leaves the script, the program and the timestamp alone. *)
Lemma song_info_effects video_id (s : St) :
  let s1 := snd (song_info R video_id s) in
  same_script s s1 /\
  _signature_timestamp s1 = _signature_timestamp s /\
  count is_head (trace s1) = count is_head (trace s) /\
  count is_signature (trace s1) = count is_signature (trace s) /\
  count is_refresh (trace s1) = count is_refresh (trace s).
Proof.
  unfold song_info, cached.
  destruct (TTLCache.get (now s) _ (cache s)) as [[v|] c].
  - destruct (proj codec_song v); cbv zeta; combine_effects.
  - run_all; cbv zeta; combine_effects.
Qed.

(** A resolution with probe by a service that holds a script, when the
    probe is answered (and, for a 403, the request for the timestamp
    too): it returns the URL built from the blob, after two runs of the
    cipher, one probe, and one refresh exactly for a 403. *)
Lemma warm_resolution f video_id (s : St) blob c status_code :
  has_plain_url f = false ->
  signatureCipher f = Some blob ->
  String.eqb (_js s) "" = false ->
  _cipher s = Some c ->
  let sig := dict_get "s" (parse_signatureCipher R blob) in
  let u := signed_url R c blob in
  session_head R (trace s ++ [EvSignature sig]) u = Some status_code ->
  ((status_code =? 403) = true ->
   api_get_signatureTimestamp R
     ((trace s ++ [EvSignature sig]) ++ [EvHead u]) (_api_auth s) <> None) ->
  let out := _get_stream_url R f video_id true s in
  fst out = Ok (Some u) /\
  count is_signature (trace (snd out))
  = (count is_signature (trace s) + 2)%nat /\
  count is_head (trace (snd out)) = (count is_head (trace s) + 1)%nat /\
  count is_refresh (trace (snd out))
  = (count is_refresh (trace s)
     + (if (status_code =? 403)%Z then 1 else 0))%nat.
Proof.
  intros Hf Hblob Hjs Hc sig u Hprobe Hrefresh out.
  pose proof (@pass_warm f video_id s blob c Hf Hblob Hjs Hc) as P1.
  fold sig u in P1. subst out.
  destruct (status_code =? 403) eqn:H403.
  - apply Z.eqb_eq in H403. subst status_code.
    destruct (api_get_signatureTimestamp R
                ((trace s ++ [EvSignature sig]) ++ [EvHead u]) (_api_auth s))
      as [ts|] eqn:Hts; [|now elim Hrefresh].
    rewrite (@retry_forbidden f video_id s _ u ts Hf P1 Hprobe Hts).
    rewrite (@pass_warm f video_id
               (set_signature_timestamp ts
                  (record R EvGetSignatureTimestamp
                     (record R (EvHead u) (record R (EvSignature sig) s))))
               blob c Hf Hblob Hjs Hc).
    fold sig u. combine_effects.
  - rewrite (@retry_allowed f video_id s _ u status_code Hf P1 Hprobe H403).
    rewrite (@pass_warm f video_id
               (record R (EvHead u) (record R (EvSignature sig) s))
               blob c Hf Hblob Hjs Hc).
    fold sig u. combine_effects.
Qed.

(** The same resolution when the session raises on the probe: the
    exception is the result, after one run of the cipher. *)
Lemma warm_resolution_refused f video_id (s : St) blob c :
  has_plain_url f = false ->
  signatureCipher f = Some blob ->
  String.eqb (_js s) "" = false ->
  _cipher s = Some c ->
  let sig := dict_get "s" (parse_signatureCipher R blob) in
  let u := signed_url R c blob in
  session_head R (trace s ++ [EvSignature sig]) u = None ->
  _get_stream_url R f video_id true s
  = (Raise RequestException,
     record R (EvHead u) (record R (EvSignature sig) s)).
Proof.
  intros Hf Hblob Hjs Hc sig u Hprobe.
  pose proof (@pass_warm f video_id s blob c Hf Hblob Hjs Hc) as P1.
  fold sig u in P1.
  rewrite _get_stream_url_unfold, _get_stream_url_rec_retry, P1 by assumption.
  unfold head, remote. cbn [trace record]. now rewrite Hprobe.
Qed.

(* ================================================================== *)
(** ** Stream resolution *)
(* ================================================================== *)

(** C3: when the format descriptor selected for the requested code has a
    non-empty plain URL, the resolution returns that URL unchanged and the
    cipher path is not entered: [_get_stream_url] leaves the service
    exactly as it found it, and the whole of [stream_url] fetches no
    script, runs no cipher and makes no probe. *)
Theorem plain_url_returned_unchanged
    video_id format_code (s0 s1 : St) song f :
  fst (TTLCache.get (now s0) (stream_url_key video_id format_code) (cache s0))
  = None ->
  song_info R video_id (after_lookup (stream_url_key video_id format_code) s0)
  = (Ok song, s1) ->
  List.find (fun f => itag f =? format_code)
    (adaptiveFormats (streamingData song)) = Some f ->
  has_plain_url f = true ->
  let s' := snd (stream_url R video_id format_code s0) in
  (forall retry s, _get_stream_url R f video_id retry s = (Ok (url f), s)) /\
  (exists u, url f = Some u /\ u <> "" /\
             fst (stream_url R video_id format_code s0) = Ok (Some u)) /\
  count is_get (trace s') = count is_get (trace s0) /\
  count is_signature (trace s') = count is_signature (trace s0) /\
  count is_head (trace s') = count is_head (trace s0).
Proof.
  intros Hmiss Hsong Hfind Hplain s'.
  assert (Hres : forall retry s,
             _get_stream_url R f video_id retry s = (Ok (url f), s)).
  { intros retry s. rewrite _get_stream_url_unfold.
    now apply _get_stream_url_rec_plain. }
  assert (Hrun : stream_url R video_id format_code s0
                 = (Ok (url f),
                    set_cache (TTLCache.set (now s1)
                                 (stream_url_key video_id format_code)
                                 (VUrl (url f)) (cache s1)) s1)).
  { unfold stream_url. fold (stream_url_key video_id format_code).
    rewrite cached_miss by assumption.
    unfold stream_url_func, bind. rewrite Hsong, Hfind, Hres. reflexivity. }
  pose proof (song_info_effects video_id
                (after_lookup (stream_url_key video_id format_code) s0)) as E.
  rewrite Hsong in E. subst s'. rewrite Hrun. cbv zeta in E.
  unfold after_lookup in E.
  split; [exact Hres|]. split.
  - unfold has_plain_url in Hplain. destruct (url f) as [u|]; [|discriminate].
    exists u. repeat split.
    intros ->. discriminate.
  - combine_effects.
Qed.

(** C4: when no descriptor of the track's format list has the requested
    format code, the resolution returns [None], not an error, and makes no
    probe. *)
Theorem absent_format_returns_None
    video_id format_code (s0 s1 : St) song :
  fst (TTLCache.get (now s0) (stream_url_key video_id format_code) (cache s0))
  = None ->
  song_info R video_id (after_lookup (stream_url_key video_id format_code) s0)
  = (Ok song, s1) ->
  forallb (fun f => negb (itag f =? format_code))
    (adaptiveFormats (streamingData song)) = true ->
  let s' := snd (stream_url R video_id format_code s0) in
  stream_url_func R video_id format_code
    (after_lookup (stream_url_key video_id format_code) s0) = (Ok None, s1) /\
  fst (stream_url R video_id format_code s0) = Ok None /\
  count is_head (trace s') = count is_head (trace s0).
Proof.
  intros Hmiss Hsong Hnone s'.
  assert (Hfind : List.find (fun f => itag f =? format_code)
                    (adaptiveFormats (streamingData song)) = None).
  { clear -Hnone.
    induction (adaptiveFormats (streamingData song)) as [|f fs IH];
      [reflexivity|].
    cbn [forallb List.find] in *.
    apply andb_true_iff in Hnone as [Hf Hfs].
    destruct (itag f =? format_code); [discriminate|]. now apply IH. }
  assert (Hfunc : stream_url_func R video_id format_code
            (after_lookup (stream_url_key video_id format_code) s0)
          = (Ok None, s1)).
  { unfold stream_url_func, bind. now rewrite Hsong, Hfind. }
  pose proof (song_info_effects video_id
                (after_lookup (stream_url_key video_id format_code) s0)) as E.
  rewrite Hsong in E. cbv zeta in E. unfold after_lookup in E.
  subst s'. unfold stream_url. fold (stream_url_key video_id format_code).
  rewrite cached_miss, Hfunc by assumption.
  split; [reflexivity|]. split; [reflexivity|]. combine_effects.
Qed.

(** C8: a resolution on the ciphered path makes at most two passes,
    whatever the probe answers: any recursion depth of two or more gives
    the result of [_get_stream_url], which never is a [RecursionError];
    the cipher runs at most twice and at most one probe is made.  When the
    resolution returns, there were exactly two passes and one probe, and
    the result is the one of the second pass, which is not probed.  And
    it does return: for a service that holds a script, whatever status
    the probe answers, 403 included as long as the request for the
    timestamp is answered too, the resolution returns the URL built from
    the blob after exactly two runs of the cipher and one probe. *)
Theorem at_most_two_passes depth f video_id (s : St) :
  (2 <= depth)%nat ->
  has_plain_url f = false ->
  let out := _get_stream_url R f video_id true s in
  _get_stream_url_rec R depth f video_id true s = out /\
  fst out <> Raise RecursionError /\
  (count is_signature (trace (snd out))
   <= count is_signature (trace s) + 2)%nat /\
  (count is_head (trace (snd out)) <= count is_head (trace s) + 1)%nat /\
  (forall r, fst out = Ok r ->
     count is_signature (trace (snd out))
     = (count is_signature (trace s) + 2)%nat /\
     count is_head (trace (snd out)) = (count is_head (trace s) + 1)%nat /\
     exists s2,
       count is_signature (trace s2) = (count is_signature (trace s) + 1)%nat /\
       count is_head (trace s2) = (count is_head (trace s) + 1)%nat /\
       _get_stream_url R f video_id false s2 = out) /\
  (forall blob c status_code,
     signatureCipher f = Some blob ->
     String.eqb (_js s) "" = false ->
     _cipher s = Some c ->
     session_head R
       (trace s ++ [EvSignature (dict_get "s" (parse_signatureCipher R blob))])
       (signed_url R c blob) = Some status_code ->
     ((status_code =? 403) = true ->
      api_get_signatureTimestamp R
        ((trace s
          ++ [EvSignature (dict_get "s" (parse_signatureCipher R blob))])
         ++ [EvHead (signed_url R c blob)]) (_api_auth s) <> None) ->
     fst out = Ok (Some (signed_url R c blob)) /\
     count is_signature (trace (snd out))
     = (count is_signature (trace s) + 2)%nat /\
     count is_head (trace (snd out)) = (count is_head (trace s) + 1)%nat).
Proof.
  intros Hdepth Hf out.
  destruct depth as [|[|n]]; try lia.
  split; [apply _get_stream_url_rec_depth|].
  split; [apply resolve_no_RecursionError|].
  destruct (resolve_effects f video_id true s) as (_ & Hh & Hs & _).
  split; [exact Hs|]. split; [exact Hh|].
  split.
  2:{ intros blob c status_code Hblob Hjs Hc Hprobe Hrefresh.
      destruct (@warm_resolution f video_id s blob c status_code
                  Hf Hblob Hjs Hc Hprobe Hrefresh) as (H1 & H2 & H3 & _).
      subst out. now repeat split. }
  intros r Hr. subst out.
  destruct (_get_stream_url R f video_id true s) as [r' s'] eqn:Hout.
  cbn [fst snd] in *. subst r'.
  destruct (retry_result f video_id s Hf Hout)
    as (u1 & s1 & status_code & s2 & P1 & Hprobe & Hs2 & P2).
  destruct (pass_result f video_id s Hf P1) as (_ & _ & _ & _ & _ & S1 & _).
  destruct (pass_result f video_id s2 Hf P2) as (_ & _ & _ & _ & _ & S2 & _).
  pose proof (pass_effects f video_id s) as E1. rewrite P1 in E1.
  pose proof (pass_effects f video_id s2) as E2. rewrite P2 in E2.
  cbv zeta in E1, E2.
  assert (Hmid : count is_signature (trace s2) = count is_signature (trace s1)
                 /\ count is_head (trace s2)
                    = (count is_head (trace s1) + 1)%nat).
  { destruct (status_code =? 403).
    - destruct Hs2 as (ts & _ & ->). combine_effects.
    - subst s2. combine_effects. }
  split; [combine_effects|]. split; [combine_effects|].
  exists s2. split; [combine_effects|]. split; [combine_effects|].
  rewrite _get_stream_url_unfold, _get_stream_url_rec_no_retry. exact P2.
Qed.

(** C10: when the probe of the first pass is answered with a status other
    than 403, the signature timestamp is left as it was, no refresh is
    requested, and the URL returned, which the second pass builds, is the
    URL of the first pass.  The player script held after the first pass is
    taken to be non-empty. *)
Theorem no_refresh_unless_forbidden f video_id (s s1 : St) u1 status_code :
  has_plain_url f = false ->
  _get_stream_url R f video_id false s = (Ok (Some u1), s1) ->
  String.eqb (_js s1) "" = false ->
  session_head R (trace s1) u1 = Some status_code ->
  (status_code =? 403) = false ->
  let out := _get_stream_url R f video_id true s in
  fst out = Ok (Some u1) /\
  _signature_timestamp (snd out) = _signature_timestamp s /\
  count is_refresh (trace (snd out)) = count is_refresh (trace s) /\
  _js (snd out) = _js s1 /\ _cipher (snd out) = _cipher s1.
Proof.
  intros Hf P1 Hjs Hprobe H403 out.
  rewrite _get_stream_url_unfold, _get_stream_url_rec_no_retry in P1.
  destruct (pass_result f video_id s Hf P1)
    as (sig_ch & c & Hsig & Hc & Hu & _).
  injection Hu as ->.
  pose proof (pass_effects f video_id s) as E1. rewrite P1 in E1.
  cbv zeta in E1.
  subst out. rewrite (retry_allowed f video_id s Hf P1 Hprobe H403).
  rewrite (@pass_warm f video_id (record R (EvHead (signed_url R c sig_ch)) s1)
             sig_ch c Hf Hsig Hjs Hc).
  combine_effects.
Qed.

(** What a forbidden probe leads to: the signature timestamp is requested
    exactly once and stored, and a second pass runs on the same format
    descriptor: the track metadata is not fetched again, no second probe
    is made, and the result of the second pass is returned as it is.
    With a non-empty player script held after the first pass, that is the
    URL of the first pass. *)
Theorem forbidden_refreshes_and_repeats_pass
    f video_id (s s1 : St) u1 ts :
  has_plain_url f = false ->
  _get_stream_url R f video_id false s = (Ok (Some u1), s1) ->
  String.eqb (_js s1) "" = false ->
  session_head R (trace s1) u1 = Some 403 ->
  api_get_signatureTimestamp R (trace s1 ++ [EvHead u1]) (_api_auth s1)
  = Some ts ->
  let out := _get_stream_url R f video_id true s in
  out = _get_stream_url R f video_id false
          (set_signature_timestamp ts
             (record R EvGetSignatureTimestamp (record R (EvHead u1) s1))) /\
  fst out = Ok (Some u1) /\
  _signature_timestamp (snd out) = ts /\
  count is_refresh (trace (snd out)) = (count is_refresh (trace s) + 1)%nat /\
  count is_head (trace (snd out)) = (count is_head (trace s) + 1)%nat /\
  count is_signature (trace (snd out))
  = (count is_signature (trace s) + 2)%nat /\
  count is_get_song (trace (snd out)) = count is_get_song (trace s).
Proof.
  intros Hf P1 Hjs Hprobe Hts out.
  rewrite _get_stream_url_unfold, _get_stream_url_rec_no_retry in P1.
  destruct (pass_result f video_id s Hf P1)
    as (sig_ch & c & Hsig & Hc & Hu & S1 & _).
  injection Hu as ->.
  pose proof (pass_effects f video_id s) as E1. rewrite P1 in E1.
  cbv zeta in E1.
  subst out. rewrite (retry_forbidden f video_id s Hf P1 Hprobe Hts).
  split; [reflexivity|].
  rewrite (@pass_warm f video_id
             (set_signature_timestamp ts
                (record R EvGetSignatureTimestamp
                   (record R (EvHead (signed_url R c sig_ch)) s1)))
             sig_ch c Hf Hsig Hjs Hc).
  combine_effects.
Qed.

(* ================================================================== *)
(** ** The player script and its program *)
(* ================================================================== *)

(** C7: the player script is fetched and its program built on first need,
    and from then on never again.  While no script is held, a resolution
    on the ciphered path that returns has fetched the embed page and the
    script once, and holds the program built from that script.  Once a
    script is held, no call of the service, for any track, fetches over
    the session or changes the script or the program: nothing in the
    service refreshes them.  A player script without content is taken to
    have no program. *)
Theorem script_fetched_once
    (call : Call) (s : St) f video_id retry (s0 s1 : St) r :
  String.eqb (_js s) "" = false ->
  String.eqb (_js s0) "" = true ->
  Cipher_new R "" = None ->
  has_plain_url f = false ->
  _get_stream_url R f video_id retry s0 = (Ok r, s1) ->
  same_script s (run R call s) /\
  count is_get (trace s1) = (count is_get (trace s0) + 2)%nat /\
  String.eqb (_js s1) "" = false /\
  Cipher_new R (_js s1) = _cipher s1.
Proof.
  intros Hheld Hcold Hempty Hf Hout.
  split.
  { apply (@run_stable (holds_script (_js s) (_cipher s)
                          (count is_get (trace s))) call s).
    - now apply stable_holds_script.
    - now repeat split. }
  assert (Hpass : forall (s s1 : St) r,
             String.eqb (_js s) "" = true ->
             _get_stream_url_rec R 1 f video_id false s = (Ok r, s1) ->
             count is_get (trace s1) = (count is_get (trace s) + 2)%nat /\
             String.eqb (_js s1) "" = false /\
             Cipher_new R (_js s1) = _cipher s1).
  { intros x x1 rx Hx Px.
    destruct (pass_result f video_id x Hf Px)
      as (_ & c & _ & Hc & _ & _ & Hfetch).
    destruct (Hfetch Hx) as (Hn & Hnew).
    split; [exact Hn|]. split; [|congruence].
    destruct (String.eqb_spec (_js x1) ""); [|reflexivity].
    congruence. }
  destruct retry.
  2:{ rewrite _get_stream_url_unfold, _get_stream_url_rec_no_retry in Hout.
      now apply (Hpass s0 s1 r). }
  destruct (retry_result f video_id s0 Hf Hout)
    as (u1 & x1 & status_code & s2 & P1 & _ & Hs2 & P2).
  destruct (Hpass _ _ _ Hcold P1) as (Hn & Hjs & Hnew).
  pose proof (pass_effects f video_id s2) as E2. rewrite P2 in E2.
  cbv zeta in E2.
  destruct (status_code =? 403).
  - destruct Hs2 as (ts & _ & ->). combine_effects.
  - subst s2. combine_effects.
Qed.

(* ================================================================== *)
(** ** The result cache *)
(* ================================================================== *)

(** C9: [stream_url] memoizes its result under the key made of
    ["stream_url"], the receiver, the track id and the format code.  After
    a call that computed a result, [None] included, a second call for the
    same track and format code within the TTL returns that result and
    leaves the service untouched: no format is selected, no cipher run, no
    probe made and nothing retried. *)
Theorem stream_url_memoized video_id format_code (s s1 : St) r d :
  fst (TTLCache.get (now s) (stream_url_key video_id format_code) (cache s))
  = None ->
  stream_url R video_id format_code s = (Ok r, s1) ->
  0 <= d < TTLCache.ttl (cache s1) ->
  TTLCache.lookup (stream_url_key video_id format_code)
    (TTLCache.entries (cache s1))
  = Some {| TTLCache.entry_key := stream_url_key video_id format_code;
            TTLCache.entry_value := VUrl r;
            TTLCache.entry_time := now s1 |} /\
  stream_url R video_id format_code (sleep d s1) = (Ok r, sleep d s1).
Proof.
  intros Hmiss Hrun Hd.
  unfold stream_url in *. fold (stream_url_key video_id format_code) in *.
  rewrite cached_miss in Hrun by assumption.
  destruct (stream_url_func R video_id format_code _) as [[a|e] s0'];
    [|discriminate].
  injection Hrun as <- <-.
  split.
  - cbn [cache set_cache now]. unfold TTLCache.set, TTLCache.with_entries.
    cbn [TTLCache.entries].
    apply TTLCacheFacts.lookup_snoc.
    + apply TTLCacheFacts.set_kept_lacks_key.
    + apply TTLCacheFacts.has_key_new.
  - apply (@cached_again _ codec_url).
    + reflexivity.
    + cbn [cache set_cache] in Hd. apply Hd.
Qed.

(** C5: two calls of a cached method with the same key, the second within
    the TTL, run the method body once and both return its result; a call
    after the TTL has elapsed runs the body again.  The first call is the
    body followed by the store; the second returns the stored value and
    leaves the service untouched whatever the body would do; the third is
    again a body followed by a store. *)
Theorem cached_computes_once_per_ttl
    A (cd : Codec A) k (func func' : M Cipher A) (s s1 : St) a d1 d2 :
  (forall x, proj cd (inj cd x) = Some x) ->
  fst (TTLCache.get (now s) k (cache s)) = None ->
  func (after_lookup k s) = (Ok a, s1) ->
  0 <= d1 < TTLCache.ttl (cache s1) ->
  TTLCache.ttl (cache s1) <= d2 ->
  let s2 := set_cache (TTLCache.set (now s1) k (inj cd a) (cache s1)) s1 in
  cached cd k func s = (Ok a, s2) /\
  cached cd k func' (sleep d1 s2) = (Ok a, sleep d1 s2) /\
  cached cd k func' (sleep d2 s2) =
    match func' (after_lookup k (sleep d2 s2)) with
    | (Ok a', s3) =>
        (Ok a',
         set_cache (TTLCache.set (now s3) k (inj cd a') (cache s3)) s3)
    | (Raise e, s3) => (Raise e, s3)
    end.
Proof.
  intros Hcd Hmiss Hfunc Hd1 Hd2 s2.
  split; [|split].
  - rewrite cached_miss, Hfunc by assumption. reflexivity.
  - apply cached_again; [assumption|lia].
  - apply cached_miss. now apply cached_expired.
Qed.

Lemma lookup_none_iff k es :
  TTLCache.lookup k es = None
  <-> forallb (fun e => negb (TTLCache.has_key k e)) es = true.
Proof.
  unfold TTLCache.lookup.
  induction es as [|x es IH]; cbn [List.find forallb]; [tauto|].
  destruct (TTLCache.has_key k x); cbn [negb andb]; [|exact IH].
  split; discriminate.
Qed.

Lemma filter_all A (p : A -> bool) l :
  forallb p l = true -> filter p l = l.
Proof.
  induction l as [|x l IH]; cbn [forallb filter]; intros H; [reflexivity|].
  apply andb_true_iff in H as [-> Hl]. now rewrite IH.
Qed.

(** A write of a new key into a full cache of live entries drops the
    entry at the least-recently-used end. *)
Lemma set_full_evicts_head t k v (c : TTLCache.t) :
  List.length (TTLCache.entries c) = TTLCache.maxsize c ->
  (1 <= TTLCache.maxsize c)%nat ->
  forallb (TTLCache.live c t) (TTLCache.entries c) = true ->
  TTLCache.lookup k (TTLCache.entries c) = None ->
  TTLCache.entries (TTLCache.set t k v c)
  = (tl (TTLCache.entries c)
     ++ [{| TTLCache.entry_key := k; TTLCache.entry_value := v;
            TTLCache.entry_time := t |}])%list.
Proof.
  intros Hfull Hpos Hlive Hk.
  unfold TTLCache.set, TTLCache.with_entries. cbn [TTLCache.entries].
  rewrite (@TTLCacheFacts.remove_id _ _ Hk).
  rewrite Hfull, Nat.leb_refl, (filter_all _ _ Hlive).
  unfold TTLCache.evict_lru. rewrite Hfull.
  replace (TTLCache.maxsize c - (TTLCache.maxsize c - 1))%nat with 1%nat
    by lia.
  destruct (TTLCache.entries c); reflexivity.
Qed.

(** C6: the one cache of the process holds at most 100 entries and gives
    every key the same TTL of 600 seconds, and every call of the service
    keeps the bound.  Eviction goes by use, not by age or remaining TTL:
    a write into a full cache of live entries evicts the entry at the
    head of the order; a read of a held key moves its entry to the other
    end, so that the write after it evicts the next one and keeps the
    entry just read, wherever that entry stood before. *)
Theorem cache_bounded_and_lru
    (call : Call) (s : St) (c : TTLCache.t) t k v e es k0 front e0 back :
  bounded (cache s) ->
  TTLCache.entries c = e :: es ->
  TTLCache.entries c = (front ++ e0 :: back)%list ->
  List.length (TTLCache.entries c) = TTLCache.maxsize c ->
  (2 <= TTLCache.maxsize c)%nat ->
  forallb (TTLCache.live c t) (TTLCache.entries c) = true ->
  TTLCache.lookup k (TTLCache.entries c) = None ->
  TTLCache.has_key k0 e0 = true ->
  TTLCache.lookup k0 front = None ->
  TTLCache.lookup k0 back = None ->
  (forall t0, cache (init Cipher t0) = CACHE) /\
  TTLCache.maxsize CACHE = 100%nat /\
  TTLCache.ttl CACHE = 10 * 60 /\
  bounded CACHE /\
  bounded (cache (run R call s)) /\
  TTLCache.entries (TTLCache.set t k v c)
  = (es ++ [{| TTLCache.entry_key := k; TTLCache.entry_value := v;
               TTLCache.entry_time := t |}])%list /\
  TTLCache.get t k0 c
  = (Some (TTLCache.entry_value e0),
     TTLCache.with_entries c (front ++ back ++ [e0])) /\
  TTLCache.entries (TTLCache.set t k v (snd (TTLCache.get t k0 c)))
  = (tl (front ++ back ++ [e0])
     ++ [{| TTLCache.entry_key := k; TTLCache.entry_value := v;
            TTLCache.entry_time := t |}])%list /\
  In e0 (TTLCache.entries (TTLCache.set t k v (snd (TTLCache.get t k0 c)))).
Proof.
  intros Hb Hes Hsplit Hfull Hsize Hlive Hk Hk0 Hfront Hback.
  split; [reflexivity|]. split; [reflexivity|]. split; [reflexivity|].
  split; [repeat split; cbn; lia|].
  split; [apply (@run_stable (fun s => bounded (cache s)) call s);
          [apply stable_bounded | exact Hb]|].
  split.
  { rewrite set_full_evicts_head by (assumption || lia).
    now rewrite Hes. }
  assert (Hget : TTLCache.get t k0 c
                 = (Some (TTLCache.entry_value e0),
                    TTLCache.with_entries c (front ++ back ++ [e0]))).
  { unfold TTLCache.get.
    assert (Hl : TTLCache.lookup k0 (TTLCache.entries c) = Some e0).
    { rewrite Hsplit. unfold TTLCache.lookup in *.
      clear -Hfront Hk0. induction front as [|x xs IH]; cbn [app List.find].
      - now rewrite Hk0.
      - cbn [List.find] in Hfront.
        destruct (TTLCache.has_key k0 x); [discriminate|]. now apply IH. }
    rewrite Hl.
    assert (He0 : TTLCache.live c t e0 = true).
    { rewrite Hsplit, forallb_app in Hlive. cbn [forallb] in Hlive.
      apply andb_true_iff in Hlive as [_ Hlive].
      now apply andb_true_iff in Hlive as [Hlive _]. }
    rewrite He0. f_equal. f_equal.
    rewrite Hsplit. unfold TTLCache.remove. rewrite filter_app.
    cbn [filter]. rewrite Hk0. cbn [negb].
    fold (TTLCache.remove k0 front). fold (TTLCache.remove k0 back).
    rewrite (@TTLCacheFacts.remove_id _ _ Hfront).
    rewrite (@TTLCacheFacts.remove_id _ _ Hback).
    now rewrite app_assoc. }
  split; [exact Hget|].
  assert (Hset : TTLCache.entries
                   (TTLCache.set t k v (snd (TTLCache.get t k0 c)))
                 = (tl (front ++ back ++ [e0])
                    ++ [{| TTLCache.entry_key := k;
                           TTLCache.entry_value := v;
                           TTLCache.entry_time := t |}])%list).
  { rewrite Hget. cbn [snd].
    rewrite Hsplit in Hfull, Hlive, Hk.
    apply set_full_evicts_head;
      unfold TTLCache.with_entries;
      cbn [TTLCache.entries TTLCache.maxsize].
    - rewrite <- Hfull. rewrite !length_app. cbn [List.length]. lia.
    - lia.
    - unfold TTLCache.live in *. cbn [TTLCache.ttl].
      rewrite !forallb_app in *. cbn [forallb] in *.
      apply andb_true_iff in Hlive as [H1 H2].
      apply andb_true_iff in H2 as [H2 H3].
      now rewrite H1, H2, H3.
    - apply lookup_none_iff. apply lookup_none_iff in Hk.
      rewrite !forallb_app in *. cbn [forallb] in *.
      apply andb_true_iff in Hk as [H1 H2].
      apply andb_true_iff in H2 as [H2 H3].
      now rewrite H1, H2, H3. }
  split; [exact Hset|].
  rewrite Hset. apply in_or_app. left.
  rewrite Hsplit, length_app in Hfull. cbn [List.length] in Hfull.
  destruct front as [|x front]; cbn [app tl].
  - destruct back as [|y back]; cbn [app tl List.length] in *; [lia|].
    apply in_or_app. right. now left.
  - apply in_or_app. right. apply in_or_app. right. now left.
Qed.

(* ================================================================== *)
(** ** Parsing the ciphered blob *)
(* ================================================================== *)

Lemma split_single sep s :
  PyStr.lacks sep s = true -> PyStr.split sep s = [s].
Proof.
  induction s as [|a s IH]; cbn [PyStr.lacks PyStr.split]; intros H.
  - reflexivity.
  - apply andb_true_iff in H as [Ha Hs].
    apply negb_true_iff in Ha. rewrite Ha, (IH Hs). reflexivity.
Qed.

Lemma split_app sep a b :
  PyStr.lacks sep a = true ->
  PyStr.split sep (a ++ String sep b) = a :: PyStr.split sep b.
Proof.
  induction a as [|x a IH]; cbn [PyStr.lacks PyStr.split append]; intros H.
  - now rewrite Ascii.eqb_refl.
  - apply andb_true_iff in H as [Hx Ha].
    apply negb_true_iff in Hx. rewrite Hx, (IH Ha). reflexivity.
Qed.

(** The blob ["s=<X>&url=<Y>"] is parsed into the decoded [X] and [Y]
    whenever the piece ["url=<Y>"] does not contain ["s="]. *)
Lemma parse_signatureCipher_s_url X Y :
  PyStr.lacks "&" X = true ->
  PyStr.lacks "&" Y = true ->
  (PyStr.find "s=" ("url=" ++ Y) <? 0) = true ->
  parse_signatureCipher R ("s=" ++ X ++ "&url=" ++ Y)
  = [("s", unquote R X); ("url", unquote R Y)].
Proof.
  intros HX HY Hs. unfold parse_signatureCipher.
  change ("s=" ++ X ++ "&url=" ++ Y)
    with (("s=" ++ X) ++ String "&" ("url=" ++ Y)).
  rewrite split_app by exact HX.
  rewrite split_single by exact HY.
  cbn [fold_left]. unfold parse_piece at 2. cbn [map fst fold_left].
  change (PyStr.find ("s" ++ "=") ("s=" ++ X)) with 0.
  cbn [Z.leb Z.compare dict_set String.eqb Ascii.eqb Bool.eqb].
  cbn [String.length append PyStr.drop].
  assert (Hlast : forall g,
             parse_piece R ("url=" ++ Y) [("s", unquote R X); ("url", g)]
             = [("s", unquote R X); ("url", unquote R Y)]).
  { intros g. unfold parse_piece. cbn [map fst fold_left].
    change ("s" ++ "=") with "s=".
    destruct (Z.leb_spec 0 (PyStr.find "s=" ("url=" ++ Y))) as [Hge|_].
    - apply Z.ltb_lt in Hs. lia.
    - change (PyStr.find ("url" ++ "=") ("url=" ++ Y)) with 0.
      reflexivity. }
  destruct (0 <=? PyStr.find _ (String "s" (String "=" X))); apply Hlast.
Qed.

End ServiceFacts.

(* ================================================================== *)
(** ** The service at work *)
(* ================================================================== *)

(** C2: the blob ["s=AB&url=https://y/base?ids=1"], whose values contain
    no ['&'], is not parsed into its two fields.  The piece of the URL
    contains ["s="], so the loop takes it for the signature field too and
    overwrites the signature with the piece cut after two characters; the
    URL returned carries the decoding of ["l=https://y/base?ids=1"]
    instead of the decoding of ["AB"]. *)
Theorem blob_with_s_in_url_misparsed :
  parse_signatureCipher (Demo.remote 200) "s=AB&url=https://y/base?ids=1"
  = [("s", "l=https://y/base?ids=1"); ("url", "https://y/base?ids=1")] /\
  fst (_get_stream_url (Demo.remote 200) Demo.f249 "abc123" false
         (Demo.warm 200))
  = Ok (Some "https://y/base?ids=1&sig=1=sdi?esab/y//:sptth=l") /\
  fst (_get_stream_url (Demo.remote 200) Demo.f249 "abc123" false
         (Demo.warm 200))
  <> Ok (Some ("https://y/base?ids=1" ++ "&sig=" ++ Demo.reverse "AB")).
Proof.
  split; [vm_compute; reflexivity|].
  split; [vm_compute; reflexivity|].
  vm_compute. discriminate.
Qed.

(** C1: with a probe that answers 403, the resolution of a ciphered format
    refreshes the timestamp (to 6 here) and runs the cipher a second time
    on the descriptor it already has: the metadata of the track is
    fetched once only, before the probe and with the old timestamp,
    nothing is fetched with the refreshed one, and the URL returned is
    the URL the probe has just refused. *)
Lemma forbidden_retry_fetches_no_metadata :
  let out := stream_url (Demo.remote 403) "abc123" 250 (Demo.fresh 403) in
  fst out = Ok (Some "https://y/base&sig=ZYX") /\
  trace (snd out)
  = [EvGetSignatureTimestamp; EvGetSong "abc123" 0;
     EvGet "https://www.youtube.com/embed/abc123";
     EvGet "https://www.youtube.com/base.js"; EvSignature "XYZ";
     EvHead "https://y/base&sig=ZYX"; EvGetSignatureTimestamp;
     EvSignature "XYZ"] /\
  _signature_timestamp (snd out) = 6 /\
  count is_get_song (trace (snd out)) <> 2%nat /\
  ~ In (EvGetSong "abc123" 6) (trace (snd out)).
Proof.
  vm_compute. repeat split; try discriminate.
  intros H. repeat (destruct H as [H|H]; [discriminate|]). exact H.
Qed.

Lemma forbidden_refreshes_and_repeats_pass_witness :
  fst (_get_stream_url (Demo.remote 403) Demo.f250 "abc123" true
         (Demo.warm 403))
  = Ok (Some "https://y/base&sig=ZYX").
Proof.
  refine (proj1 (proj2
    (@forbidden_refreshes_and_repeats_pass unit (Demo.remote 403)
       Demo.f250 "abc123" (Demo.warm 403)
       (snd (_get_stream_url (Demo.remote 403) Demo.f250 "abc123" false
               (Demo.warm 403)))
       "https://y/base&sig=ZYX" 5 _ _ _ _ _)));
    vm_compute; reflexivity.
Defined.

Lemma plain_url_returned_unchanged_witness :
  _get_stream_url (Demo.remote 200) Demo.f251 "abc123" true (Demo.fresh 200)
  = (Ok (Some "https://x/plain"), Demo.fresh 200).
Proof.
  refine (proj1
    (@plain_url_returned_unchanged unit (Demo.remote 200) "abc123" 251
       (Demo.fresh 200)
       (snd (song_info (Demo.remote 200) "abc123"
               (after_lookup (stream_url_key "abc123" 251) (Demo.fresh 200))))
       Demo.abc123 Demo.f251 _ _ _ _) true (Demo.fresh 200));
    vm_compute; reflexivity.
Defined.

Lemma absent_format_returns_None_witness :
  fst (stream_url (Demo.remote 200) "abc123" 7 (Demo.fresh 200)) = Ok None.
Proof.
  refine (proj1 (proj2
    (@absent_format_returns_None unit (Demo.remote 200) "abc123" 7
       (Demo.fresh 200)
       (snd (song_info (Demo.remote 200) "abc123"
               (after_lookup (stream_url_key "abc123" 7) (Demo.fresh 200))))
       Demo.abc123 _ _ _)));
    vm_compute; reflexivity.
Defined.

Lemma at_most_two_passes_witness :
  fst (_get_stream_url (Demo.remote 403) Demo.f250 "abc123" true
         (Demo.warm 403))
  = Ok (Some "https://y/base&sig=ZYX") /\
  count is_signature
    (trace (snd (_get_stream_url (Demo.remote 403) Demo.f250 "abc123" true
                   (Demo.warm 403))))
  = (count is_signature (trace (Demo.warm 403)) + 2)%nat /\
  count is_head
    (trace (snd (_get_stream_url (Demo.remote 403) Demo.f250 "abc123" true
                   (Demo.warm 403))))
  = (count is_head (trace (Demo.warm 403)) + 1)%nat.
Proof.
  refine (proj2 (proj2 (proj2 (proj2 (proj2
    (@at_most_two_passes unit (Demo.remote 403) 5 Demo.f250 "abc123"
       (Demo.warm 403) _ _)))))
    "s=XYZ&url=https://y/base" tt 403 _ _ _ _ _);
    try (vm_compute; reflexivity); try lia.
  intros _. vm_compute. discriminate.
Defined.

Lemma no_refresh_unless_forbidden_witness :
  fst (_get_stream_url (Demo.remote 200) Demo.f250 "abc123" true
         (Demo.fresh 200))
  = Ok (Some "https://y/base&sig=ZYX").
Proof.
  refine (proj1
    (@no_refresh_unless_forbidden unit (Demo.remote 200) Demo.f250 "abc123"
       (Demo.fresh 200)
       (snd (_get_stream_url (Demo.remote 200) Demo.f250 "abc123" false
               (Demo.fresh 200)))
       "https://y/base&sig=ZYX" 200 _ _ _ _ _));
    vm_compute; reflexivity.
Defined.

Lemma script_fetched_once_witness :
  count is_get
    (trace (snd (_get_stream_url (Demo.remote 403) Demo.f250 "abc123" true
                   (Demo.fresh 403))))
  = (count is_get (trace (Demo.fresh 403)) + 2)%nat.
Proof.
  refine (proj1 (proj2
    (@script_fetched_once unit (Demo.remote 403)
       (CallStreamUrl "abc123" 250) (Demo.warm 403)
       Demo.f250 "abc123" true (Demo.fresh 403)
       (snd (_get_stream_url (Demo.remote 403) Demo.f250 "abc123" true
               (Demo.fresh 403)))
       (Some "https://y/base&sig=ZYX") _ _ _ _ _)));
    vm_compute; reflexivity.
Defined.

Lemma stream_url_memoized_witness :
  let s1 := snd (stream_url (Demo.remote 403) "abc123" 250 (Demo.fresh 403)) in
  stream_url (Demo.remote 403) "abc123" 250 (sleep 599 s1)
  = (Ok (Some "https://y/base&sig=ZYX"), sleep 599 s1).
Proof.
  refine (proj2
    (@stream_url_memoized unit (Demo.remote 403) "abc123" 250
       (Demo.fresh 403)
       (snd (stream_url (Demo.remote 403) "abc123" 250 (Demo.fresh 403)))
       (Some "https://y/base&sig=ZYX") 599 _ _ _));
    vm_compute; try reflexivity.
  split; [discriminate | reflexivity].
Defined.

Lemma cached_computes_once_per_ttl_witness :
  let k := hashkey "song_info" [ASelf; AStr "abc123"] in
  let func := song_info_func (Demo.remote 200) "abc123" in
  let s1 := snd (func (after_lookup k (Demo.fresh 200))) in
  let s2 :=
    set_cache (TTLCache.set (now s1) k (VSongInfo Demo.abc123) (cache s1)) s1 in
  cached codec_song k func (Demo.fresh 200) = (Ok Demo.abc123, s2) /\
  cached codec_song k func (sleep 599 s2) = (Ok Demo.abc123, sleep 599 s2) /\
  count is_get_song (trace s2) = 1%nat.
Proof.
  intros k func s1 s2.
  destruct (@cached_computes_once_per_ttl unit SongInfo codec_song k func func
              (Demo.fresh 200) s1 Demo.abc123 599 600) as (H1 & H2 & _).
  - intros x. reflexivity.
  - vm_compute. reflexivity.
  - vm_compute. reflexivity.
  - vm_compute. split; [discriminate | reflexivity].
  - vm_compute. discriminate.
  - split; [exact H1|]. split; [exact H2|]. vm_compute. reflexivity.
Defined.

Lemma cache_bounded_and_lru_witness :
  let k := hashkey "song_info" [ASelf; AStr "abc123"] in
  let k0 := hashkey "album_info" [ASelf; AInt 0] in
  TTLCache.entries (TTLCache.set 100 k (VSongInfo Demo.abc123) Demo.full)
  = (map Demo.entry (seq 1 99)
     ++ [{| TTLCache.entry_key := k;
            TTLCache.entry_value := VSongInfo Demo.abc123;
            TTLCache.entry_time := 100 |}])%list /\
  TTLCache.entries
    (TTLCache.set 100 k (VSongInfo Demo.abc123)
       (snd (TTLCache.get 100 k0 Demo.full)))
  = (map Demo.entry (seq 2 98)
     ++ [Demo.entry 0;
         {| TTLCache.entry_key := k;
            TTLCache.entry_value := VSongInfo Demo.abc123;
            TTLCache.entry_time := 100 |}])%list.
Proof.
  intros k k0.
  destruct (@cache_bounded_and_lru unit (Demo.remote 200)
              (CallStreamUrl "abc123" 250) (Demo.fresh 200) Demo.full 100 k
              (VSongInfo Demo.abc123) (Demo.entry 0)
              (map Demo.entry (seq 1 99)) k0 [] (Demo.entry 0)
              (map Demo.entry (seq 1 99)))
    as (_ & _ & _ & _ & _ & H1 & _ & H2 & _);
    try (vm_compute; reflexivity).
  - repeat split; try reflexivity. cbn. lia.
  - cbn. lia.
  - split; [exact H1|]. rewrite H2. vm_compute. reflexivity.
Defined.

(* ================================================================== *)
(** ** Setup, the player script and descriptors without a URL *)
(* ================================================================== *)

Lemma set_cache_same Cipher (s : State Cipher) : set_cache (cache s) s = s.
Proof. now destruct s. Qed.

Section MoreServiceFacts.

Variable Cipher : Type.
Variable R : Remote Cipher.

Let St := State Cipher.

(** What [setup] does to the service. *)
Lemma setup_outcome (s : St) :
  let out := setup R s in
  cache (snd out) = cache s /\
  _js (snd out) = _js s /\
  _cipher (snd out) = _cipher s /\
  _api_auth (snd out) = header_file R (trace s) /\
  trace (snd out) = (trace s ++ [EvGetSignatureTimestamp])%list /\
  match api_get_signatureTimestamp R (trace s) (header_file R (trace s)) with
  | Some ts => fst out = Ok tt /\ _signature_timestamp (snd out) = ts
  | None => fst out = Raise RequestException /\
            _signature_timestamp (snd out) = _signature_timestamp s
  end.
Proof.
  run_monad.
  destruct (api_get_signatureTimestamp R (trace s) (header_file R (trace s)));
    cbn [fst snd cache _js _cipher _api_auth trace _signature_timestamp
         set_signature_timestamp record set_api_auth];
    repeat split.
Qed.

(** X1: [setup] switches the credentials to those of the header file and
    asks for the signature timestamp once; the timestamp is stored only
    if the request succeeds, while the credentials are switched either
    way.  The cache, the player script and its program are not reset. *)
Theorem setup_effects (s : St) :
  let out := setup R s in
  cache (snd out) = cache s /\
  _js (snd out) = _js s /\
  _cipher (snd out) = _cipher s /\
  _api_auth (snd out) = header_file R (trace s) /\
  trace (snd out) = (trace s ++ [EvGetSignatureTimestamp])%list /\
  match api_get_signatureTimestamp R (trace s) (header_file R (trace s)) with
  | Some ts => fst out = Ok tt /\ _signature_timestamp (snd out) = ts
  | None => fst out = Raise RequestException /\
            _signature_timestamp (snd out) = _signature_timestamp s
  end.
Proof. exact (setup_outcome s). Qed.

(** A hit on a value written at time [t0], read by a service whose cache
    is the one the write left. *)
Lemma cached_hit_after_set A (cd : Codec A) k (func : M Cipher A)
    (s : St) c t0 a :
  (forall x, proj cd (inj cd x) = Some x) ->
  cache s = TTLCache.set t0 k (inj cd a) c ->
  now s - t0 < TTLCache.ttl c ->
  cached cd k func s = (Ok a, s).
Proof.
  intros Hcd Hc Hlive.
  assert (Hget : TTLCache.get (now s) k (cache s) = (Some (inj cd a), cache s)).
  { rewrite Hc. now apply TTLCacheFacts.get_after_set. }
  rewrite (@cached_hit _ _ cd k func s (inj cd a) a).
  - unfold after_lookup. rewrite Hget. cbn [snd]. now rewrite set_cache_same.
  - now rewrite Hget.
  - apply Hcd.
Qed.

(** X2: a URL that [stream_url] has computed and memoized is still served
    after a later [setup] (a change of user), as long as the TTL counted
    from the first call has not elapsed: the second call returns it
    without contacting anyone. *)
Theorem memo_survives_setup video_id format_code (s s1 : St) r d :
  fst (TTLCache.get (now s) (stream_url_key video_id format_code) (cache s))
  = None ->
  stream_url R video_id format_code s = (Ok r, s1) ->
  now (snd (setup R s1)) + d - now s1 < TTLCache.ttl (cache s1) ->
  let s2 := sleep d (snd (setup R s1)) in
  stream_url R video_id format_code s2 = (Ok r, s2).
Proof.
  intros Hmiss Hrun Hd s2.
  unfold stream_url in Hrun. fold (stream_url_key video_id format_code) in Hrun.
  rewrite cached_miss in Hrun by assumption.
  destruct (stream_url_func R video_id format_code _) as [[a|e] s0'];
    [|discriminate].
  injection Hrun as Hr Hs1. subst a.
  destruct (setup_outcome s1) as (Hc & _).
  unfold stream_url. fold (stream_url_key video_id format_code).
  apply (@cached_hit_after_set _ codec_url _ _ s2 (cache s0') (now s0') r).
  - reflexivity.
  - subst s2 s1. cbn [cache sleep]. rewrite Hc. reflexivity.
  - subst s2 s1. cbn [now sleep]. exact Hd.
Qed.

(** X3: what [_get_cipher] leaves behind.  If it returns, it has fetched
    the embed page of the given track and then the script that page names,
    and holds that script with the program built from it.  If it raises,
    the program is the one held before, and the script has changed only
    if it is the building of the program that failed. *)
Theorem get_cipher_effects video_id (s : St) :
  let out := _get_cipher R video_id s in
  let embed_url := "https://www.youtube.com/embed/" ++ video_id in
  cache (snd out) = cache s /\
  _signature_timestamp (snd out) = _signature_timestamp s /\
  (fst out = Ok tt ->
   exists embed_html js_url,
     session_get R (trace s) embed_url = Some embed_html /\
     extract_js_url R embed_html = Some js_url /\
     session_get R (trace s ++ [EvGet embed_url]) js_url = Some (_js (snd out)) /\
     trace (snd out) = (trace s ++ [EvGet embed_url; EvGet js_url])%list /\
     Cipher_new R (_js (snd out)) = _cipher (snd out)) /\
  (fst out <> Ok tt ->
   _cipher (snd out) = _cipher s /\
   (_js (snd out) <> _js s ->
    fst out = Raise RegexMatchError /\ Cipher_new R (_js (snd out)) = None)).
Proof.
  cbv zeta. run_all; cbn [fst snd];
    (split; [reflexivity|]); (split; [reflexivity|]); split; intros H;
    try discriminate; try congruence;
    cbn [_cipher _js trace set_js set_cipher record].
  - eexists. eexists. rewrite <- app_assoc. cbn [app].
    repeat split; eassumption || reflexivity.
  - split; [reflexivity|]. intros _. split; [reflexivity|assumption].
  - split; [reflexivity|]. intros Hne. now elim Hne.
  - split; [reflexivity|]. intros Hne. now elim Hne.
  - split; [reflexivity|]. intros Hne. now elim Hne.
Qed.

(** Holding a script is kept by every sequence of calls. *)
Lemma run_calls_holds_script calls js c n (s : St) :
  String.eqb js "" = false ->
  holds_script js c n s -> holds_script js c n (run_calls R calls s).
Proof.
  intros Hjs. unfold run_calls.
  revert s. induction calls as [|call calls IH]; intros s Hs; cbn [fold_left].
  - exact Hs.
  - apply IH.
    apply (@run_stable _ R (holds_script js c n) call s); [|exact Hs].
    now apply stable_holds_script.
Qed.

(** X4: a player script whose program is not recognised is kept.  The
    resolution that fetched it raises [RegexMatchError] and leaves the
    script in place without a program; from then on, after any calls of
    the service, every resolution of a ciphered descriptor raises
    [AttributeError] and contacts nobody: the script is not fetched
    again. *)
Theorem unrecognised_script_sticks
    f video_id retry (s : St) blob embed_html js_url js
    calls f' video_id' retry' blob' :
  has_plain_url f = false ->
  signatureCipher f = Some blob ->
  String.eqb (_js s) "" = true ->
  _cipher s = None ->
  session_get R (trace s) ("https://www.youtube.com/embed/" ++ video_id)
  = Some embed_html ->
  extract_js_url R embed_html = Some js_url ->
  session_get R
    (trace s ++ [EvGet ("https://www.youtube.com/embed/" ++ video_id)]) js_url
  = Some js ->
  String.eqb js "" = false ->
  Cipher_new R js = None ->
  has_plain_url f' = false ->
  signatureCipher f' = Some blob' ->
  let s1 :=
    set_js js
      (record R (EvGet js_url)
         (record R (EvGet ("https://www.youtube.com/embed/" ++ video_id)) s)) in
  let s2 := run_calls R calls s1 in
  _get_stream_url R f video_id retry s = (Raise RegexMatchError, s1) /\
  _js s2 = js /\ _cipher s2 = None /\
  count is_get (trace s2) = (count is_get (trace s) + 2)%nat /\
  _get_stream_url R f' video_id' retry' s2 = (Raise AttributeError, s2).
Proof.
  intros Hf Hblob Hcold Hnone Hembed Hurl Hjs Hne Hnew Hf' Hblob' s1 s2.
  assert (Hfirst : forall n, _get_stream_url_rec R (S n) f video_id retry s
                             = (Raise RegexMatchError, s1)).
  { intros n. run_monad. rewrite Hf, Hblob, Hcold, Hembed, Hurl.
    cbn [trace record]. rewrite Hjs, Hnew. reflexivity. }
  split; [apply Hfirst|].
  assert (Hheld : holds_script js None (count is_get (trace s) + 2) s2).
  { apply run_calls_holds_script; [exact Hne|].
    subst s1. unfold holds_script.
    cbn [_js _cipher trace set_js record]. rewrite !count_snoc.
    cbn [is_get]. repeat split; [exact Hnone|lia]. }
  destruct Hheld as (H1 & H2 & H3).
  split; [exact H1|]. split; [exact H2|]. split; [exact H3|].
  rewrite _get_stream_url_unfold. run_monad.
  rewrite Hf', Hblob', H1, Hne, H2. reflexivity.
Qed.

(** X5: a descriptor without a plain URL (absent or empty) and without a
    blob makes the resolution raise [AttributeError] at once: nobody is
    contacted and the service is left as it was. *)
Theorem no_url_no_blob_raises f video_id retry (s : St) :
  has_plain_url f = false ->
  signatureCipher f = None ->
  _get_stream_url R f video_id retry s = (Raise AttributeError, s).
Proof.
  intros Hf Hblob. rewrite _get_stream_url_unfold. run_monad.
  now rewrite Hf, Hblob.
Qed.

End MoreServiceFacts.

(* ================================================================== *)
(** ** The blob parser on well-formed pieces *)
(* ================================================================== *)

Lemma startswith_find p s :
  PyStr.startswith p s = true -> PyStr.find p s = 0.
Proof. intros H. destruct s; cbn [PyStr.find]; now rewrite H. Qed.

Section ParserFacts.

Variable Cipher : Type.
Variable R : Remote Cipher.

Let St := State Cipher.

(** One piece against the dictionary of the two keys. *)
Lemma parse_piece_two p a b :
  parse_piece R p [("s", a); ("url", b)]
  = [("s", if 0 <=? PyStr.find "s=" p
           then unquote R (PyStr.drop 2 p) else a);
     ("url", if 0 <=? PyStr.find "url=" p
             then unquote R (PyStr.drop 4 p) else b)].
Proof.
  unfold parse_piece. cbn [map fst fold_left].
  change ("s" ++ "=") with "s=". change ("url" ++ "=") with "url=".
  change (String.length "s=") with 2%nat.
  change (String.length "url=") with 4%nat.
  destruct (0 <=? PyStr.find "s=" p), (0 <=? PyStr.find "url=" p);
    reflexivity.
Qed.

Lemma clean_piece_tests p :
  clean_piece p = true ->
  (0 <=? PyStr.find "s=" p) = PyStr.startswith "s=" p /\
  (0 <=? PyStr.find "url=" p) = PyStr.startswith "url=" p.
Proof.
  unfold clean_piece. intros H. apply andb_true_iff in H as [Hs Hu].
  split.
  - destruct (PyStr.startswith "s=" p) eqn:E.
    + now rewrite (startswith_find _ _ E).
    + destruct (0 <=? PyStr.find "s=" p); [discriminate|reflexivity].
  - destruct (PyStr.startswith "url=" p) eqn:E.
    + now rewrite (startswith_find _ _ E).
    + destruct (0 <=? PyStr.find "url=" p); [discriminate|reflexivity].
Qed.

Lemma parse_clean_pieces_from pieces a b :
  forallb clean_piece pieces = true ->
  fold_left (fun res sig => parse_piece R sig res) pieces
    [("s", a); ("url", b)]
  = [("s", field_value R "s" pieces a); ("url", field_value R "url" pieces b)].
Proof.
  revert a b. induction pieces as [|p ps IH]; intros a b H.
  - reflexivity.
  - cbn [forallb] in H. apply andb_true_iff in H as [Hp Hps].
    cbn [fold_left]. rewrite parse_piece_two.
    destruct (clean_piece_tests p Hp) as [-> ->].
    rewrite (IH _ _ Hps). unfold field_value. cbn [fold_left].
    reflexivity.
Qed.

(** A pass over a blob of well-formed pieces. *)
Lemma clean_blob_pass f video_id (s : St) blob c :
  has_plain_url f = false ->
  signatureCipher f = Some blob ->
  forallb clean_piece (PyStr.split "&" blob) = true ->
  String.eqb (_js s) "" = false ->
  _cipher s = Some c ->
  let pieces := PyStr.split "&" blob in
  let sig := field_value R "s" pieces "" in
  parse_signatureCipher R blob
  = [("s", sig); ("url", field_value R "url" pieces "")] /\
  _get_stream_url R f video_id false s
  = (Ok (Some (field_value R "url" pieces "" ++ "&sig="
               ++ Cipher_get_signature R c sig)),
     record R (EvSignature sig) s).
Proof.
  intros Hf Hblob Hclean Hjs Hc pieces sig.
  assert (Hparse : parse_signatureCipher R blob
                   = [("s", sig); ("url", field_value R "url" pieces "")]).
  { unfold parse_signatureCipher. now apply parse_clean_pieces_from. }
  split; [exact Hparse|].
  rewrite _get_stream_url_unfold, _get_stream_url_rec_no_retry.
  rewrite (@pass_warm _ R f video_id s blob c Hf Hblob Hjs Hc).
  unfold signed_url. rewrite Hparse. reflexivity.
Qed.

(** X6: on a blob all of whose pieces hold ["s="] and ["url="] at their
    start only, the parser computes the two fields: each is the decoded
    value of the last piece that starts with its key, the other pieces are
    ignored; and a resolution without probe by a service that holds a
    script returns the URL field with the decoded signature field
    appended under [sig], after one run of the cipher. *)
Theorem clean_blob_resolved f video_id (s : St) blob c :
  has_plain_url f = false ->
  signatureCipher f = Some blob ->
  forallb clean_piece (PyStr.split "&" blob) = true ->
  String.eqb (_js s) "" = false ->
  _cipher s = Some c ->
  let pieces := PyStr.split "&" blob in
  let sig := field_value R "s" pieces "" in
  parse_signatureCipher R blob
  = [("s", sig); ("url", field_value R "url" pieces "")] /\
  _get_stream_url R f video_id false s
  = (Ok (Some (field_value R "url" pieces "" ++ "&sig="
               ++ Cipher_get_signature R c sig)),
     record R (EvSignature sig) s).
Proof. apply clean_blob_pass. Qed.

Lemma field_value_absent key pieces init :
  forallb (fun p => negb (PyStr.startswith (key ++ "=") p)) pieces = true ->
  field_value R key pieces init = init.
Proof.
  unfold field_value. revert init.
  induction pieces as [|p ps IH]; intros init H; [reflexivity|].
  cbn [forallb] in H. apply andb_true_iff in H as [Hp Hps].
  cbn [fold_left]. apply negb_true_iff in Hp. rewrite Hp. now apply IH.
Qed.

(** X7: a blob of well-formed pieces none of which is the field of the
    URL is not turned into [None] or an error by the parser: the URL field
    stays the empty string and the URL built is ["&sig="] followed by the
    decoded signature.  A pass without probe returns it.  A resolution
    with probe, as [stream_url] starts it, sends its probe to exactly that
    URL: it returns the URL whenever the probe is answered (and, for a
    403, the request for the timestamp too), and ends with the exception
    of the session when the session raises on it. *)
Theorem blob_without_url_field f video_id (s : St) blob c :
  has_plain_url f = false ->
  signatureCipher f = Some blob ->
  forallb clean_piece (PyStr.split "&" blob) = true ->
  forallb (fun p => negb (PyStr.startswith "url=" p)) (PyStr.split "&" blob)
  = true ->
  String.eqb (_js s) "" = false ->
  _cipher s = Some c ->
  let sig := field_value R "s" (PyStr.split "&" blob) "" in
  let u := "&sig=" ++ Cipher_get_signature R c sig in
  _get_stream_url R f video_id false s
  = (Ok (Some u), record R (EvSignature sig) s) /\
  (forall status_code,
     session_head R (trace s ++ [EvSignature sig]) u = Some status_code ->
     ((status_code =? 403) = true ->
      api_get_signatureTimestamp R
        ((trace s ++ [EvSignature sig]) ++ [EvHead u]) (_api_auth s)
      <> None) ->
     fst (_get_stream_url R f video_id true s) = Ok (Some u) /\
     count is_head (trace (snd (_get_stream_url R f video_id true s)))
     = (count is_head (trace s) + 1)%nat) /\
  (session_head R (trace s ++ [EvSignature sig]) u = None ->
   _get_stream_url R f video_id true s
   = (Raise RequestException,
      record R (EvHead u) (record R (EvSignature sig) s))).
Proof.
  intros Hf Hblob Hclean Hnone Hjs Hc sig u.
  destruct (clean_blob_pass f video_id s Hf Hblob Hclean Hjs Hc)
    as (Hparse & Hpass).
  rewrite (field_value_absent "url" _ "" Hnone) in Hparse, Hpass.
  fold sig in Hparse, Hpass.
  assert (Hsig : dict_get "s" (parse_signatureCipher R blob) = sig)
    by now rewrite Hparse.
  assert (Hu : signed_url R c blob = u)
    by (unfold signed_url; now rewrite Hparse).
  split; [exact Hpass|]. split.
  - intros status_code Hprobe Hrefresh.
    rewrite <- Hsig, <- Hu in Hprobe, Hrefresh.
    destruct (@warm_resolution _ R f video_id s blob c status_code
                Hf Hblob Hjs Hc Hprobe Hrefresh) as (H1 & _ & H3 & _).
    rewrite Hu in H1. now split.
  - intros Hprobe. rewrite <- Hsig, <- Hu in Hprobe.
    rewrite (@warm_resolution_refused _ R f video_id s blob c
               Hf Hblob Hjs Hc Hprobe).
    now rewrite Hsig, Hu.
Qed.

(** X8: [get_charts] asks the catalog without credentials.  When the
    catalog answers, the credentials held before are put back; when the
    request fails, they are not: the service is left without
    credentials. *)
Theorem get_charts_credentials country (s : St) :
  let out := get_charts_func R country s in
  trace (snd out) = (trace s ++ [EvApi "get_charts" [country]])%list /\
  cache (snd out) = cache s /\
  match api_call R (trace s) None "get_charts" [country] with
  | Some response =>
      out = (Ok response, record R (EvApi "get_charts" [country]) s)
  | None =>
      fst out = Raise RequestException /\ _api_auth (snd out) = None
  end.
Proof.
  run_monad.
  destruct (api_call R (trace s) None "get_charts" [country]);
    cbn [fst snd trace cache _api_auth set_api_auth record];
    repeat split.
Qed.

End ParserFacts.

(** The member [parse] finds is the one with the value asked for. *)
Lemma YtmusicType_parse_some type_value m :
  YtmusicType.parse type_value = Some m
  <-> YtmusicType.value m = type_value ++ "s".
Proof.
  unfold YtmusicType.parse. split.
  - intros H. apply find_some in H as [_ H]. now apply String.eqb_eq in H.
  - intros H. rewrite <- H. now destruct m.
Qed.

(* ================================================================== *)
(** ** Equal keys *)
(* ================================================================== *)

Lemma Arg_eqb_eq a b : Arg_eqb a b = true -> a = b.
Proof.
  destruct a, b; cbn [Arg_eqb]; intros H; try discriminate.
  - reflexivity.
  - apply String.eqb_eq in H. now subst.
  - apply Z.eqb_eq in H. now subst.
Qed.

Lemma Key_eqb_eq k1 k2 : Key_eqb k1 k2 = true -> k1 = k2.
Proof.
  revert k2. induction k1 as [|a k1 IH]; intros [|b k2] H;
    cbn [Key_eqb] in H; try discriminate.
  - reflexivity.
  - apply andb_true_iff in H as [Ha Hk].
    apply Arg_eqb_eq in Ha. apply IH in Hk. now subst.
Qed.

(* ================================================================== *)
(** ** The provider *)
(* ================================================================== *)

Lemma lookup_remove_other k k' es :
  Key_eqb k k' = false ->
  TTLCache.lookup k (TTLCache.remove k' es) = TTLCache.lookup k es.
Proof.
  intros Hk. unfold TTLCache.lookup, TTLCache.remove.
  induction es as [|x es IH]; cbn [filter List.find]; [reflexivity|].
  destruct (TTLCache.has_key k x) eqn:Ex.
  - assert (Hx : TTLCache.has_key k' x = false).
    { unfold TTLCache.has_key in *. apply Key_eqb_eq in Ex.
      now rewrite Ex. }
    rewrite Hx. cbn [negb List.find]. now rewrite Ex.
  - destruct (TTLCache.has_key k' x); cbn [negb List.find];
      [|rewrite Ex]; exact IH.
Qed.

Lemma lookup_app_some k es es' e :
  TTLCache.lookup k es = Some e -> TTLCache.lookup k (es ++ es') = Some e.
Proof.
  unfold TTLCache.lookup.
  induction es as [|x es IH]; cbn [List.find app]; [discriminate|].
  destruct (TTLCache.has_key k x); auto.
Qed.

Lemma holds_value_get_other k k' v t t' c :
  Key_eqb k k' = false ->
  holds_value k v t c -> holds_value k v t (snd (TTLCache.get t' k' c)).
Proof.
  intros Hk (e & He & Hv & Ht). exists e.
  destruct (TTLCacheFacts.get_params t' k' c) as [_ ->].
  split; [|split; assumption].
  unfold TTLCache.get.
  destruct (TTLCache.lookup k' (TTLCache.entries c)) as [e'|];
    [|exact He].
  destruct (TTLCache.live c t' e'); unfold TTLCache.with_entries;
    cbn [snd TTLCache.entries].
  - apply lookup_app_some. now rewrite lookup_remove_other.
  - now rewrite lookup_remove_other.
Qed.

Lemma holds_value_set t k v c :
  0 < TTLCache.ttl c -> holds_value k v t (TTLCache.set t k v c).
Proof.
  intros Httl.
  exists {| TTLCache.entry_key := k; TTLCache.entry_value := v;
            TTLCache.entry_time := t |}.
  split; [|split; [reflexivity|]].
  - unfold TTLCache.set, TTLCache.with_entries. cbn [TTLCache.entries].
    apply TTLCacheFacts.lookup_snoc;
      [apply TTLCacheFacts.set_kept_lacks_key
      |apply TTLCacheFacts.has_key_new].
  - destruct (TTLCacheFacts.set_params t k v c) as [_ ->].
    cbn [TTLCache.entry_time]. lia.
Qed.

Section ProviderFacts.

Variable Cipher : Type.
Variable R : Remote Cipher.
Variable Md : Models.

Let St := State Cipher.

Let song_key (video_id : string) : Key :=
  hashkey "song_info" [ASelf; AStr video_id].

(** [song_info] asks the catalog for the metadata at most once. *)
Lemma song_info_fetches video_id (s : St) :
  (count is_get_song (trace (snd (song_info R video_id s)))
   <= count is_get_song (trace s) + 1)%nat.
Proof.
  unfold song_info, cached.
  destruct (TTLCache.get (now s) _ (cache s)) as [[v|] c].
  - destruct (proj codec_song v); cbn [snd trace set_cache]; lia.
  - run_all; cbn [snd trace set_cache record]; rewrite ?count_snoc;
      cbn [is_get_song]; lia.
Qed.

(** Metadata that [song_info] has returned is in the cache. *)
Lemma song_info_holds video_id (s s1 : St) info :
  0 < TTLCache.ttl (cache s) ->
  song_info R video_id s = (Ok info, s1) ->
  holds_value (song_key video_id) (VSongInfo info) (now s1) (cache s1).
Proof.
  intros Httl. unfold song_info, cached. fold (song_key video_id).
  pose proof (TTLCacheFacts.get_params (now s) (song_key video_id) (cache s))
    as [_ Hp].
  unfold TTLCache.get in *.
  destruct (TTLCache.lookup (song_key video_id) (TTLCache.entries (cache s)))
    as [e|] eqn:E.
  - destruct (TTLCache.live (cache s) (now s) e) eqn:L.
    + cbn [proj codec_song].
      destruct (TTLCache.entry_value e) as [i| |] eqn:V; try discriminate.
      intros H. injection H as <- <-.
      exists e. cbn [cache set_cache now TTLCache.with_entries
                     TTLCache.entries TTLCache.ttl].
      unfold TTLCache.with_entries. cbn [TTLCache.entries TTLCache.ttl].
      split; [|split; [exact V|]].
      * apply TTLCacheFacts.lookup_snoc.
        -- apply TTLCacheFacts.lookup_remove.
        -- apply find_some in E. apply E.
      * unfold TTLCache.live in L. now apply Z.ltb_lt in L.
    + run_monad.
      destruct (api_get_song R _ _ _ _); [|discriminate].
      intros H. injection H as <- <-.
      cbn [cache set_cache now record].
      apply holds_value_set. exact Httl.
  - run_monad.
    destruct (api_get_song R _ _ _ _); [|discriminate].
    intros H. injection H as <- <-.
    cbn [cache set_cache now record].
    apply holds_value_set. exact Httl.
Qed.

(** Metadata that is in the cache is returned without asking. *)
Lemma song_info_hit video_id (s : St) info :
  holds_value (song_key video_id) (VSongInfo info) (now s) (cache s) ->
  song_info R video_id s
  = (Ok info, after_lookup (song_key video_id) s).
Proof.
  intros (e & He & Hv & Ht).
  apply cached_hit with (v := VSongInfo info); [|reflexivity].
  unfold TTLCache.get. fold (song_key video_id). rewrite He.
  unfold TTLCache.live. apply Z.ltb_lt in Ht. rewrite Ht.
  cbn [fst]. now rewrite Hv.
Qed.

(** With the metadata of the track in the cache, [stream_url] does not
    ask for it. *)
Lemma stream_url_asks_no_metadata video_id format_code (s : St) info :
  holds_value (song_key video_id) (VSongInfo info) (now s) (cache s) ->
  count is_get_song (trace (snd (stream_url R video_id format_code s)))
  = count is_get_song (trace s).
Proof.
  intros Hheld. unfold stream_url, cached.
  pose proof (@holds_value_get_other (song_key video_id)
                (hashkey "stream_url" [ASelf; AStr video_id; AInt format_code])
                (VSongInfo info) (now s) (now s) (cache s) eq_refl Hheld)
    as Hheld'.
  destruct (TTLCache.get (now s) _ (cache s)) as [[v|] c]; cbn [snd] in Hheld'.
  - destruct (proj codec_url v); reflexivity.
  - unfold stream_url_func, bind.
    rewrite (@song_info_hit video_id (set_cache c s) info Hheld').
    destruct (List.find _ _) as [f|].
    + destruct (@resolve_effects _ R f video_id true
                  (after_lookup (song_key video_id) (set_cache c s)))
        as ((_ & _ & Hg) & _).
      destruct (_get_stream_url R f video_id true _) as [[u|e] s2];
        cbn [snd trace set_cache] in *; exact Hg.
    + reflexivity.
Qed.

(** X13: [song_get_media] asks the catalog for the metadata of the track
    at most once, however it ends: the metadata it obtained first is
    what [stream_url] then finds in the cache.  It returns [None] exactly
    when [stream_url] does, and otherwise the resolved URL with the
    bitrate and format of the model. *)
Theorem song_get_media_fetches_once
    song_identifier quality (s s1 : St) info format_code bitrate format_str :
  0 < TTLCache.ttl (cache s) ->
  song_info R song_identifier s = (Ok info, s1) ->
  get_media Md info quality = Some (format_code, bitrate, format_str) ->
  let out := YtmusicProvider.song_get_media R Md song_identifier quality s in
  (count is_get_song (trace (snd out))
   <= count is_get_song (trace s) + 1)%nat /\
  count is_get_song (trace (snd out)) = count is_get_song (trace s1) /\
  match stream_url R song_identifier format_code s1 with
  | (Ok (Some u), s2) =>
      out = (Returns (Some (AudioMedia u bitrate format_str)), s2)
  | (Ok None, s2) => out = (Returns None, s2)
  | (Raise e, s2) => out = (Raises (ServiceError e), s2)
  end.
Proof.
  intros Httl Hsong Hmedia out.
  pose proof (song_info_fetches song_identifier s) as Hfetch.
  rewrite Hsong in Hfetch. cbn [snd] in Hfetch.
  pose proof (@stream_url_asks_no_metadata song_identifier format_code s1 info
                (song_info_holds song_identifier s Httl Hsong)) as Hnone.
  subst out.
  unfold YtmusicProvider.song_get_media, YtmusicProvider.pbind,
    YtmusicProvider.service, YtmusicProvider.plift, YtmusicProvider.pret.
  rewrite Hsong, Hmedia.
  destruct (stream_url R song_identifier format_code s1) as [[[u|]|e] s2];
    cbn [snd] in *; (split; [lia|]); split; congruence || reflexivity.
Qed.

(** X14: [video_get_media] on a track for which the model lists no audio
    format raises [IndexError] right after the metadata was obtained:
    nothing is resolved.  Otherwise the video stream is resolved first
    and the audio stream second, the second also when the first gave
    [None], and the result is [None] unless both gave a URL. *)
Theorem video_get_media_cases
    video_identifier quality (s s1 : St) info format_code :
  song_info R video_identifier s = (Ok info, s1) ->
  get_mv Md info quality = Some format_code ->
  let out := YtmusicProvider.video_get_media R Md video_identifier quality s in
  match list_formats Md info with
  | [] => out = (Raises IndexError, s1)
  | q0 :: _ =>
      match get_media Md info q0 with
      | None => out = (Raises ModelError, s1)
      | Some (audio_code, _, _) =>
          match stream_url R video_identifier format_code s1 with
          | (Raise e, s2) => out = (Raises (ServiceError e), s2)
          | (Ok u, s2) =>
              match stream_url R video_identifier audio_code s2 with
              | (Raise e, s3) => out = (Raises (ServiceError e), s3)
              | (Ok a, s3) =>
                  out = (Returns match u, a with
                                 | Some u', Some a' =>
                                     Some (ManifestMedia u' a')
                                 | _, _ => None
                                 end, s3)
              end
          end
      end
  end.
Proof.
  intros Hsong Hmv out. subst out.
  unfold YtmusicProvider.video_get_media, YtmusicProvider.pbind,
    YtmusicProvider.service, YtmusicProvider.plift, YtmusicProvider.pret,
    YtmusicProvider.praise.
  rewrite Hsong, Hmv.
  destruct (list_formats Md info) as [|q0 qs]; cbn [hd_error]; [reflexivity|].
  destruct (get_media Md info q0) as [[[audio_code b] fm]|]; [|reflexivity].
  destruct (stream_url R video_identifier format_code s1) as [[u|e] s2];
    [|reflexivity].
  destruct (stream_url R video_identifier audio_code s2) as [[a|e] s3];
    reflexivity.
Qed.

(** X11: [search] of the provider asks the catalog before it looks at the
    type.  For a search type with a member of [YtmusicType] the catalog is
    asked with that filter and the results are set on the attribute named
    by the member; for one without, the catalog is asked without filter
    and then [AttributeError] is raised. *)
Theorem provider_search_cases keyword type_ type_value results (s : St) :
  SearchType_parse Md type_ = Some type_value ->
  api_call R (trace s) (_api_auth s) "search"
    [keyword;
     opt_arg (option_map YtmusicType.value (YtmusicType.parse type_value));
     ""; "20"]
  = Some results ->
  let out := YtmusicProvider.provider_search R Md keyword type_ s in
  let asked :=
    record R
      (EvApi "search"
         [keyword;
          opt_arg (option_map YtmusicType.value
                     (YtmusicType.parse type_value));
          ""; "20"]) s in
  match YtmusicType.parse type_value with
  | Some t =>
      out = (Returns {| search_q := keyword;
                        search_attribute := type_value ++ "s";
                        search_results := results |}, asked)
  | None => out = (Raises ProviderAttributeError, asked)
  end.
Proof.
  intros Hparse Hq out asked. subst out asked.
  unfold YtmusicProvider.provider_search, YtmusicProvider.pbind,
    YtmusicProvider.service, YtmusicProvider.plift, YtmusicProvider.pret,
    YtmusicProvider.praise, search, api, remote.
  rewrite Hparse.
  change (int_arg GLOBAL_LIMIT) with "20".
  change (opt_arg (option_map YtmusicScope.value None)) with "".
  rewrite Hq.
  destruct (YtmusicType.parse type_value) as [t|] eqn:E; [|reflexivity].
  apply YtmusicType_parse_some in E. now rewrite E.
Qed.

(** X15: assigning the provider's user runs [setup] first.  When the
    request for the signature timestamp fails the user is not recorded,
    although the credentials are already those of the header file; when
    it succeeds the user is recorded.  The cache is kept in both
    cases. *)
Theorem set_user_effects user (s : St) old :
  let out := YtmusicProvider.set_user R user (s, old) in
  cache (fst (snd out)) = cache s /\
  _api_auth (fst (snd out)) = header_file R (trace s) /\
  match api_get_signatureTimestamp R (trace s) (header_file R (trace s)) with
  | Some ts =>
      fst out = Returns tt /\ snd (snd out) = Some user /\
      _signature_timestamp (fst (snd out)) = ts
  | None =>
      fst out = Raises (ServiceError RequestException) /\
      snd (snd out) = old /\
      _signature_timestamp (fst (snd out)) = _signature_timestamp s
  end.
Proof.
  cbv zeta. unfold YtmusicProvider.set_user, YtmusicProvider.service.
  cbn [fst snd].
  destruct (@setup_outcome _ R s) as (Hc & _ & _ & Ha & _ & Hts).
  destruct (api_get_signatureTimestamp R (trace s) (header_file R (trace s)));
    destruct Hts as [Hr Ht];
    destruct (setup R s) as [[[]|e] s1]; cbn [fst snd] in *;
    try discriminate; repeat split; congruence.
Qed.

End ProviderFacts.

(* ================================================================== *)
(** ** More of the service at work *)
(* ================================================================== *)

Lemma memo_survives_setup_witness :
  stream_url (Demo.remote 403) "abc123" 250
    (sleep 500
       (snd (setup (Demo.remote 403)
               (snd (stream_url (Demo.remote 403) "abc123" 250
                       (Demo.fresh 403))))))
  = (Ok (Some "https://y/base&sig=ZYX"),
     sleep 500
       (snd (setup (Demo.remote 403)
               (snd (stream_url (Demo.remote 403) "abc123" 250
                       (Demo.fresh 403)))))).
Proof.
  refine (@memo_survives_setup unit (Demo.remote 403) "abc123" 250
            (Demo.fresh 403)
            (snd (stream_url (Demo.remote 403) "abc123" 250 (Demo.fresh 403)))
            (Some "https://y/base&sig=ZYX") 500 _ _ _);
    vm_compute; reflexivity.
Defined.

Lemma unrecognised_script_sticks_witness :
  _get_stream_url Demo2.broken Demo.f250 "abc123" true
    (snd (setup Demo2.broken (init unit 0)))
  = (Raise RegexMatchError,
     set_js "GET https://www.youtube.com/base.js"
       (record Demo2.broken (EvGet "https://www.youtube.com/base.js")
          (record Demo2.broken (EvGet "https://www.youtube.com/embed/abc123")
             (snd (setup Demo2.broken (init unit 0)))))).
Proof.
  refine (proj1
    (@unrecognised_script_sticks unit Demo2.broken
       Demo.f250 "abc123" true (snd (setup Demo2.broken (init unit 0)))
       "s=XYZ&url=https://y/base"
       "GET https://www.youtube.com/embed/abc123"
       "https://www.youtube.com/base.js"
       "GET https://www.youtube.com/base.js"
       [CallStreamUrl "abc123" 251; CallSetup] Demo2.f_sp "other" false
       "s=XYZ&sp=sig&url=https://y/base" _ _ _ _ _ _ _ _ _ _ _));
    vm_compute; reflexivity.
Defined.

Lemma no_url_no_blob_raises_witness :
  _get_stream_url (Demo.remote 200) Demo2.f_none "abc123" true
    (Demo.warm 200)
  = (Raise AttributeError, Demo.warm 200).
Proof.
  refine (@no_url_no_blob_raises unit (Demo.remote 200) Demo2.f_none "abc123"
            true (Demo.warm 200) _ _); reflexivity.
Defined.

Lemma clean_blob_resolved_witness :
  _get_stream_url (Demo.remote 200) Demo2.f_sp "abc123" false (Demo.warm 200)
  = (Ok (Some (field_value (Demo.remote 200) "url"
                 (PyStr.split "&" "s=XYZ&sp=sig&url=https://y/base") ""
               ++ "&sig="
               ++ Demo.reverse
                    (field_value (Demo.remote 200) "s"
                       (PyStr.split "&" "s=XYZ&sp=sig&url=https://y/base") ""))),
     record (Demo.remote 200)
       (EvSignature
          (field_value (Demo.remote 200) "s"
             (PyStr.split "&" "s=XYZ&sp=sig&url=https://y/base") ""))
       (Demo.warm 200)).
Proof.
  refine (proj2
    (@clean_blob_resolved unit (Demo.remote 200) Demo2.f_sp "abc123"
       (Demo.warm 200) "s=XYZ&sp=sig&url=https://y/base" tt _ _ _ _ _));
    vm_compute; reflexivity.
Defined.

Lemma blob_without_url_field_witness :
  fst (_get_stream_url (Demo.remote 200) Demo2.f_nourl "abc123" false
         (Demo.warm 200))
  = Ok (Some "&sig=ZYX") /\
  fst (_get_stream_url (Demo.remote 200) Demo2.f_nourl "abc123" true
         (Demo.warm 200))
  = Ok (Some "&sig=ZYX").
Proof.
  destruct (@blob_without_url_field unit (Demo.remote 200) Demo2.f_nourl
              "abc123" (Demo.warm 200) "s=XYZ&sp=sig" tt)
    as (H1 & H2 & _); try (vm_compute; reflexivity).
  split.
  - rewrite H1. reflexivity.
  - destruct (H2 200) as [H _].
    + vm_compute. reflexivity.
    + intros H. vm_compute in H. discriminate H.
    + rewrite H. reflexivity.
Defined.

Lemma provider_search_cases_witness :
  YtmusicProvider.provider_search (Demo.remote 200) Demo2.models
    "hello" "lyric" (Demo.fresh 200)
  = (Raises ProviderAttributeError,
     record (Demo.remote 200) (EvApi "search" ["hello"; ""; ""; "20"])
       (Demo.fresh 200)).
Proof.
  refine (@provider_search_cases unit (Demo.remote 200) Demo2.models
            "hello" "lyric" "lyric" "search" (Demo.fresh 200) _ _);
    reflexivity.
Defined.

Lemma song_get_media_fetches_once_witness :
  (count is_get_song
     (trace (snd (YtmusicProvider.song_get_media (Demo.remote 200)
                    Demo2.models "abc123" "hq" (Demo.fresh 200))))
   <= count is_get_song (trace (Demo.fresh 200)) + 1)%nat.
Proof.
  refine (proj1
    (@song_get_media_fetches_once unit (Demo.remote 200) Demo2.models
       "abc123" "hq" (Demo.fresh 200)
       (snd (song_info (Demo.remote 200) "abc123" (Demo.fresh 200)))
       Demo.abc123 250 128 "webm" _ _ _));
    vm_compute; reflexivity.
Defined.

Lemma video_get_media_cases_witness :
  YtmusicProvider.video_get_media (Demo.remote 200) Demo2.silent
    "abc123" "hd" (Demo.fresh 200)
  = (Raises IndexError,
     snd (song_info (Demo.remote 200) "abc123" (Demo.fresh 200))).
Proof.
  refine (@video_get_media_cases unit (Demo.remote 200) Demo2.silent
            "abc123" "hd" (Demo.fresh 200)
            (snd (song_info (Demo.remote 200) "abc123" (Demo.fresh 200)))
            Demo.abc123 251 _ _);
    vm_compute; reflexivity.
Defined.

